(** * Netlink inet_diag decoding pipeline: classifier, TLV splitter,
      record extractor, attribute codecs and snapshot assembler.

    The Go sources are embedded as executable Rocq functions.  Fixed-width
    integers are [Z] with their wrap-around written out, byte slices are
    [list byte] (a slice that may be [nil] is [option (list byte)]), Go's
    [(value, error)] results are tuples whose error component is an
    [option], and a run-time panic is an explicit [Panics] outcome. *)

From Stdlib Require Import ZArith List Lia Bool.
From Stdlib Require Import Strings.Byte.
From stdpp Require Import base list.
Import ListNotations.

Local Open Scope Z_scope.

(* ================================================================== *)
(** ** Outcomes of Go calls                                            *)
(* ================================================================== *)

(** A call either returns a value, panics at run time (index or slice
    bounds out of range), or exhausts the fuel given to a loop. *)
Inductive outcome (A : Type) : Type :=
| Returns (a : A)
| Panics
| OutOfFuel.

Arguments Returns {A} a.
Arguments Panics {A}.
Arguments OutOfFuel {A}.

#[global] Instance outcome_ret : MRet outcome := fun _ a => Returns a.

#[global] Instance outcome_bind : MBind outcome := fun _ _ k m =>
  match m with
  | Returns a => k a
  | Panics => Panics
  | OutOfFuel => OutOfFuel
  end.

(* ================================================================== *)
(** ** Bytes and native-endian integers                                *)
(* ================================================================== *)

Definition byteZ (b : byte) : Z := Z.of_N (Byte.to_N b).

(** [len(b)] as a Go [int]. *)
Definition len {A : Type} (b : list A) : Z := Z.of_nat (length b).

(** Byte order of the machine the decoder runs on ([nl.NativeEndian()]
    and every [unsafe.Pointer] read depend on it). *)
Inductive ByteOrder : Type := LittleEndian | BigEndian.

Fixpoint le_uint (bs : list byte) : Z :=
  match bs with
  | [] => 0
  | b :: rest => Z.lor (byteZ b) (Z.shiftl (le_uint rest) 8)
  end.

(** The unsigned integer stored in [bs] in byte order [o]. *)
Definition uint_of (o : ByteOrder) (bs : list byte) : Z :=
  match o with
  | LittleEndian => le_uint bs
  | BigEndian => le_uint (rev bs)
  end.

(** Conversion [int32(x)] of a [uint32]. *)
Definition int32 (x : Z) : Z :=
  let y := x mod 2 ^ 32 in if y <? 2 ^ 31 then y else y - 2 ^ 32.

(* ================================================================== *)
(** ** Errors                                                          *)
(* ================================================================== *)

(** Package-level error values.  [ErrTruncatedAttribute] is the failure of
    the attribute splitter's helper. *)
Inductive sentinel : Type :=
| ErrBadSequence
| ErrBadPid
| ErrBadMsgData
| ErrNotType20
| ErrParseFailed
| ErrTruncatedAttribute.

(** A Go [error]: one of the package-level values, or a value freshly
    made by [fmt.Errorf] (identified by its text). *)
Inductive error : Type :=
| Sentinel (e : sentinel)
| Errorf (text : list byte).

(* ================================================================== *)
(** ** Netlink messages and the message classifier                     *)
(* ================================================================== *)

(** [syscall.NlMsghdr]: Len uint32, Type uint16, Flags uint16,
    Seq uint32, Pid uint32.  [Type_] is the field [Type]. *)
Record NlMsghdr : Type := {
  Len : Z;
  Type_ : Z;
  Flags : Z;
  Seq : Z;
  Pid : Z
}.

Record NetlinkMessage : Type := {
  Header : NlMsghdr;
  Data : list byte
}.

(** Constants of [golang.org/x/sys/unix]. *)
Definition NLMSG_ERROR : Z := 2.
Definition NLMSG_DONE : Z := 3.
Definition NLM_F_MULTI : Z := 2.

(** What [processSingleMessage] prints. *)
Inductive printed : Type :=
| WrongSeq (got expected : Z)
| WrongPid (got expected : Z)
| PrintErrno (errno : Z).

(** Result triple of the classifier: accepted message (or nil), whether
    more messages are expected, error (or nil). *)
Definition classified : Type := (option NetlinkMessage * bool * option error)%type.

(** [processSingleMessage], with the text it prints as second component. *)
Definition processSingleMessage (native : ByteOrder)
    (m : NetlinkMessage) (seq pid : Z) : classified * list printed :=
  if negb (Seq (Header m) =? seq) then
    ((None, false, Some (Sentinel ErrBadSequence)), [WrongSeq (Seq (Header m)) seq])
  else if negb (Pid (Header m) =? pid) then
    ((None, false, Some (Sentinel ErrBadPid)), [WrongPid (Pid (Header m)) pid])
  else if Type_ (Header m) =? NLMSG_DONE then
    ((None, false, None), [])
  else
    let tail (out : list printed) : classified * list printed :=
      if Z.land (Flags (Header m)) NLM_F_MULTI =? 0
      then ((Some m, false, None), out)
      else ((Some m, true, None), out) in
    if Type_ (Header m) =? NLMSG_ERROR then
      if len (Data m) <? 4 then
        ((None, false, Some (Sentinel ErrBadMsgData)), [])
      else
        let error := int32 (uint_of native (firstn 4 (Data m))) in
        if error =? 0 then ((None, false, None), [])
        else tail [PrintErrno (int32 (- error))]
    else tail [].

(** The error code an NLMSG_ERROR message carries: [int32] of the first
    four payload bytes read in native byte order. *)
Definition errorCode (native : ByteOrder) (m : NetlinkMessage) : Z :=
  int32 (uint_of native (firstn 4 (Data m))).

(** A message with the given header fields and payload. *)
Definition mkMsg (ty flags seq pid : Z) (data : list byte) : NetlinkMessage :=
  {| Header := {| Len := 16 + len data; Type_ := ty; Flags := flags;
                  Seq := seq; Pid := pid |};
     Data := data |}.

(* ================================================================== *)
(** ** Kernel ABI of package inetdiag                                  *)
(* ================================================================== *)

(** The declarations of package [inetdiag] (attribute type codes, struct
    layouts, the fixed diagnostic header and its accessors) and the
    address predicates of Go's [net] package are taken as parameters: every
    result below holds for each choice of them.  [INET_DIAG_*] are the
    untyped constants used as [case] labels in [Decode]; [sizeof_*] is
    [unsafe.Sizeof] of the named struct.  A diagnostic header and the
    kernel structs are kept as the bytes the typed pointer designates. *)
Class ABI : Type := {
  native : ByteOrder;
  INET_DIAG_MEMINFO : Z;
  INET_DIAG_INFO : Z;
  INET_DIAG_VEGASINFO : Z;
  INET_DIAG_CONG : Z;
  INET_DIAG_TOS : Z;
  INET_DIAG_TCLASS : Z;
  INET_DIAG_SKMEMINFO : Z;
  INET_DIAG_SHUTDOWN : Z;
  INET_DIAG_DCTCPINFO : Z;
  INET_DIAG_PROTOCOL : Z;
  INET_DIAG_SKV6ONLY : Z;
  INET_DIAG_LOCALS : Z;
  INET_DIAG_PEERS : Z;
  INET_DIAG_PAD : Z;
  INET_DIAG_MARK : Z;
  INET_DIAG_BBRINFO : Z;
  INET_DIAG_CLASS_ID : Z;
  INET_DIAG_MD5SIG : Z;
  INET_DIAG_MAX : Z;
  sizeof_MemInfo : Z;
  sizeof_LinuxTCPInfo : Z;
  sizeof_VegasInfo : Z;
  sizeof_SocketMemInfo : Z;
  sizeof_DCTCPInfo : Z;
  sizeof_BBRInfo : Z;
  (** [inetdiag.SplitInetDiagMsg]: the raw header (or nil) and the
      attribute bytes. *)
  SplitInetDiagMsg : list byte -> option (list byte) * list byte;
  (** [RawInetDiagMsg.Parse]: the header, or a package-level error. *)
  RawParse : list byte -> sentinel + list byte;
  SrcIP : list byte -> list byte;
  DstIP : list byte -> list byte;
  IsLoopback : list byte -> bool;
  IsLinkLocalUnicast : list byte -> bool;
  IsMulticast : list byte -> bool;
  IsUnspecified : list byte -> bool
}.

(** The labels of the [switch] in [Decode], in source order. *)
Definition case_labels `{ABI} : list Z :=
  [INET_DIAG_MEMINFO; INET_DIAG_INFO; INET_DIAG_VEGASINFO; INET_DIAG_CONG;
   INET_DIAG_TOS; INET_DIAG_TCLASS; INET_DIAG_SKMEMINFO; INET_DIAG_SHUTDOWN;
   INET_DIAG_DCTCPINFO; INET_DIAG_PROTOCOL; INET_DIAG_SKV6ONLY;
   INET_DIAG_LOCALS; INET_DIAG_PEERS; INET_DIAG_PAD; INET_DIAG_MARK;
   INET_DIAG_BBRINFO; INET_DIAG_CLASS_ID; INET_DIAG_MD5SIG].

(* ================================================================== *)
(** ** Package parser: records                                         *)
(* ================================================================== *)

Record Metadata : Type := {
  UUID : list byte;
  Sequence : Z;
  StartTime : Z
}.

(** [RawIDM] and each entry of [Attributes] are slices that may be nil;
    [Metadata_] is the pointer field [Metadata]. *)
Record ArchivalRecord : Type := {
  Timestamp : Z;
  RawIDM : option (list byte);
  Attributes : list (option (list byte));
  Metadata_ : option Metadata
}.

(** [syscall.RtAttr]: Len uint16, Type uint16. *)
Record RtAttr : Type := {
  RtaLen : Z;
  RtaType : Z
}.

Record NetlinkRouteAttr : Type := {
  Attr : RtAttr;
  Value : list byte
}.

(** Pointer-typed fields are [None] for nil and otherwise hold the bytes of
    the struct they point to; [SnapTimestamp] is the field [Timestamp]. *)
Record Snapshot : Type := {
  SnapTimestamp : Z;
  Observed : Z;
  NotFullyParsed : Z;
  InetDiagMsg : option (list byte);
  CongestionAlgorithm : list byte;
  TOS : Z;
  TClass : Z;
  ClassID : Z;
  Shutdown : Z;
  Protocol : Z;
  Mark : Z;
  TCPInfo : option (list byte);
  MemInfo : option (list byte);
  SocketMem : option (list byte);
  VegasInfo : option (list byte);
  DCTCPInfo : option (list byte);
  BBRInfo : option (list byte)
}.

Definition emptySnapshot : Snapshot :=
  {| SnapTimestamp := 0; Observed := 0; NotFullyParsed := 0;
     InetDiagMsg := None; CongestionAlgorithm := []; TOS := 0; TClass := 0;
     ClassID := 0; Shutdown := 0; Protocol := 0; Mark := 0; TCPInfo := None;
     MemInfo := None; SocketMem := None; VegasInfo := None;
     DCTCPInfo := None; BBRInfo := None |}.

(** Field assignments [result.F = v]. *)
Definition set_SnapTimestamp (v : Z) (s : Snapshot) : Snapshot :=
  {| SnapTimestamp := v; Observed := Observed s;
     NotFullyParsed := NotFullyParsed s; InetDiagMsg := InetDiagMsg s;
     CongestionAlgorithm := CongestionAlgorithm s; TOS := TOS s;
     TClass := TClass s; ClassID := ClassID s; Shutdown := Shutdown s;
     Protocol := Protocol s; Mark := Mark s; TCPInfo := TCPInfo s;
     MemInfo := MemInfo s; SocketMem := SocketMem s;
     VegasInfo := VegasInfo s; DCTCPInfo := DCTCPInfo s;
     BBRInfo := BBRInfo s |}.

Definition set_Observed (v : Z) (s : Snapshot) : Snapshot :=
  {| SnapTimestamp := SnapTimestamp s; Observed := v;
     NotFullyParsed := NotFullyParsed s; InetDiagMsg := InetDiagMsg s;
     CongestionAlgorithm := CongestionAlgorithm s; TOS := TOS s;
     TClass := TClass s; ClassID := ClassID s; Shutdown := Shutdown s;
     Protocol := Protocol s; Mark := Mark s; TCPInfo := TCPInfo s;
     MemInfo := MemInfo s; SocketMem := SocketMem s;
     VegasInfo := VegasInfo s; DCTCPInfo := DCTCPInfo s;
     BBRInfo := BBRInfo s |}.

Definition set_NotFullyParsed (v : Z) (s : Snapshot) : Snapshot :=
  {| SnapTimestamp := SnapTimestamp s; Observed := Observed s;
     NotFullyParsed := v; InetDiagMsg := InetDiagMsg s;
     CongestionAlgorithm := CongestionAlgorithm s; TOS := TOS s;
     TClass := TClass s; ClassID := ClassID s; Shutdown := Shutdown s;
     Protocol := Protocol s; Mark := Mark s; TCPInfo := TCPInfo s;
     MemInfo := MemInfo s; SocketMem := SocketMem s;
     VegasInfo := VegasInfo s; DCTCPInfo := DCTCPInfo s;
     BBRInfo := BBRInfo s |}.

Definition set_InetDiagMsg (v : option (list byte)) (s : Snapshot) : Snapshot :=
  {| SnapTimestamp := SnapTimestamp s; Observed := Observed s;
     NotFullyParsed := NotFullyParsed s; InetDiagMsg := v;
     CongestionAlgorithm := CongestionAlgorithm s; TOS := TOS s;
     TClass := TClass s; ClassID := ClassID s; Shutdown := Shutdown s;
     Protocol := Protocol s; Mark := Mark s; TCPInfo := TCPInfo s;
     MemInfo := MemInfo s; SocketMem := SocketMem s;
     VegasInfo := VegasInfo s; DCTCPInfo := DCTCPInfo s;
     BBRInfo := BBRInfo s |}.

Definition set_CongestionAlgorithm (v : list byte) (s : Snapshot) : Snapshot :=
  {| SnapTimestamp := SnapTimestamp s; Observed := Observed s;
     NotFullyParsed := NotFullyParsed s; InetDiagMsg := InetDiagMsg s;
     CongestionAlgorithm := v; TOS := TOS s; TClass := TClass s;
     ClassID := ClassID s; Shutdown := Shutdown s; Protocol := Protocol s;
     Mark := Mark s; TCPInfo := TCPInfo s; MemInfo := MemInfo s;
     SocketMem := SocketMem s; VegasInfo := VegasInfo s;
     DCTCPInfo := DCTCPInfo s; BBRInfo := BBRInfo s |}.

Definition set_TOS (v : Z) (s : Snapshot) : Snapshot :=
  {| SnapTimestamp := SnapTimestamp s; Observed := Observed s;
     NotFullyParsed := NotFullyParsed s; InetDiagMsg := InetDiagMsg s;
     CongestionAlgorithm := CongestionAlgorithm s; TOS := v;
     TClass := TClass s; ClassID := ClassID s; Shutdown := Shutdown s;
     Protocol := Protocol s; Mark := Mark s; TCPInfo := TCPInfo s;
     MemInfo := MemInfo s; SocketMem := SocketMem s;
     VegasInfo := VegasInfo s; DCTCPInfo := DCTCPInfo s;
     BBRInfo := BBRInfo s |}.

Definition set_TClass (v : Z) (s : Snapshot) : Snapshot :=
  {| SnapTimestamp := SnapTimestamp s; Observed := Observed s;
     NotFullyParsed := NotFullyParsed s; InetDiagMsg := InetDiagMsg s;
     CongestionAlgorithm := CongestionAlgorithm s; TOS := TOS s; TClass := v;
     ClassID := ClassID s; Shutdown := Shutdown s; Protocol := Protocol s;
     Mark := Mark s; TCPInfo := TCPInfo s; MemInfo := MemInfo s;
     SocketMem := SocketMem s; VegasInfo := VegasInfo s;
     DCTCPInfo := DCTCPInfo s; BBRInfo := BBRInfo s |}.

Definition set_ClassID (v : Z) (s : Snapshot) : Snapshot :=
  {| SnapTimestamp := SnapTimestamp s; Observed := Observed s;
     NotFullyParsed := NotFullyParsed s; InetDiagMsg := InetDiagMsg s;
     CongestionAlgorithm := CongestionAlgorithm s; TOS := TOS s;
     TClass := TClass s; ClassID := v; Shutdown := Shutdown s;
     Protocol := Protocol s; Mark := Mark s; TCPInfo := TCPInfo s;
     MemInfo := MemInfo s; SocketMem := SocketMem s;
     VegasInfo := VegasInfo s; DCTCPInfo := DCTCPInfo s;
     BBRInfo := BBRInfo s |}.

Definition set_Shutdown (v : Z) (s : Snapshot) : Snapshot :=
  {| SnapTimestamp := SnapTimestamp s; Observed := Observed s;
     NotFullyParsed := NotFullyParsed s; InetDiagMsg := InetDiagMsg s;
     CongestionAlgorithm := CongestionAlgorithm s; TOS := TOS s;
     TClass := TClass s; ClassID := ClassID s; Shutdown := v;
     Protocol := Protocol s; Mark := Mark s; TCPInfo := TCPInfo s;
     MemInfo := MemInfo s; SocketMem := SocketMem s;
     VegasInfo := VegasInfo s; DCTCPInfo := DCTCPInfo s;
     BBRInfo := BBRInfo s |}.

Definition set_Protocol (v : Z) (s : Snapshot) : Snapshot :=
  {| SnapTimestamp := SnapTimestamp s; Observed := Observed s;
     NotFullyParsed := NotFullyParsed s; InetDiagMsg := InetDiagMsg s;
     CongestionAlgorithm := CongestionAlgorithm s; TOS := TOS s;
     TClass := TClass s; ClassID := ClassID s; Shutdown := Shutdown s;
     Protocol := v; Mark := Mark s; TCPInfo := TCPInfo s;
     MemInfo := MemInfo s; SocketMem := SocketMem s;
     VegasInfo := VegasInfo s; DCTCPInfo := DCTCPInfo s;
     BBRInfo := BBRInfo s |}.

Definition set_Mark (v : Z) (s : Snapshot) : Snapshot :=
  {| SnapTimestamp := SnapTimestamp s; Observed := Observed s;
     NotFullyParsed := NotFullyParsed s; InetDiagMsg := InetDiagMsg s;
     CongestionAlgorithm := CongestionAlgorithm s; TOS := TOS s;
     TClass := TClass s; ClassID := ClassID s; Shutdown := Shutdown s;
     Protocol := Protocol s; Mark := v; TCPInfo := TCPInfo s;
     MemInfo := MemInfo s; SocketMem := SocketMem s;
     VegasInfo := VegasInfo s; DCTCPInfo := DCTCPInfo s;
     BBRInfo := BBRInfo s |}.

Definition set_TCPInfo (v : option (list byte)) (s : Snapshot) : Snapshot :=
  {| SnapTimestamp := SnapTimestamp s; Observed := Observed s;
     NotFullyParsed := NotFullyParsed s; InetDiagMsg := InetDiagMsg s;
     CongestionAlgorithm := CongestionAlgorithm s; TOS := TOS s;
     TClass := TClass s; ClassID := ClassID s; Shutdown := Shutdown s;
     Protocol := Protocol s; Mark := Mark s; TCPInfo := v;
     MemInfo := MemInfo s; SocketMem := SocketMem s;
     VegasInfo := VegasInfo s; DCTCPInfo := DCTCPInfo s;
     BBRInfo := BBRInfo s |}.

Definition set_MemInfo (v : option (list byte)) (s : Snapshot) : Snapshot :=
  {| SnapTimestamp := SnapTimestamp s; Observed := Observed s;
     NotFullyParsed := NotFullyParsed s; InetDiagMsg := InetDiagMsg s;
     CongestionAlgorithm := CongestionAlgorithm s; TOS := TOS s;
     TClass := TClass s; ClassID := ClassID s; Shutdown := Shutdown s;
     Protocol := Protocol s; Mark := Mark s; TCPInfo := TCPInfo s;
     MemInfo := v; SocketMem := SocketMem s; VegasInfo := VegasInfo s;
     DCTCPInfo := DCTCPInfo s; BBRInfo := BBRInfo s |}.

Definition set_SocketMem (v : option (list byte)) (s : Snapshot) : Snapshot :=
  {| SnapTimestamp := SnapTimestamp s; Observed := Observed s;
     NotFullyParsed := NotFullyParsed s; InetDiagMsg := InetDiagMsg s;
     CongestionAlgorithm := CongestionAlgorithm s; TOS := TOS s;
     TClass := TClass s; ClassID := ClassID s; Shutdown := Shutdown s;
     Protocol := Protocol s; Mark := Mark s; TCPInfo := TCPInfo s;
     MemInfo := MemInfo s; SocketMem := v; VegasInfo := VegasInfo s;
     DCTCPInfo := DCTCPInfo s; BBRInfo := BBRInfo s |}.

Definition set_VegasInfo (v : option (list byte)) (s : Snapshot) : Snapshot :=
  {| SnapTimestamp := SnapTimestamp s; Observed := Observed s;
     NotFullyParsed := NotFullyParsed s; InetDiagMsg := InetDiagMsg s;
     CongestionAlgorithm := CongestionAlgorithm s; TOS := TOS s;
     TClass := TClass s; ClassID := ClassID s; Shutdown := Shutdown s;
     Protocol := Protocol s; Mark := Mark s; TCPInfo := TCPInfo s;
     MemInfo := MemInfo s; SocketMem := SocketMem s; VegasInfo := v;
     DCTCPInfo := DCTCPInfo s; BBRInfo := BBRInfo s |}.

Definition set_DCTCPInfo (v : option (list byte)) (s : Snapshot) : Snapshot :=
  {| SnapTimestamp := SnapTimestamp s; Observed := Observed s;
     NotFullyParsed := NotFullyParsed s; InetDiagMsg := InetDiagMsg s;
     CongestionAlgorithm := CongestionAlgorithm s; TOS := TOS s;
     TClass := TClass s; ClassID := ClassID s; Shutdown := Shutdown s;
     Protocol := Protocol s; Mark := Mark s; TCPInfo := TCPInfo s;
     MemInfo := MemInfo s; SocketMem := SocketMem s;
     VegasInfo := VegasInfo s; DCTCPInfo := v; BBRInfo := BBRInfo s |}.

Definition set_BBRInfo (v : option (list byte)) (s : Snapshot) : Snapshot :=
  {| SnapTimestamp := SnapTimestamp s; Observed := Observed s;
     NotFullyParsed := NotFullyParsed s; InetDiagMsg := InetDiagMsg s;
     CongestionAlgorithm := CongestionAlgorithm s; TOS := TOS s;
     TClass := TClass s; ClassID := ClassID s; Shutdown := Shutdown s;
     Protocol := Protocol s; Mark := Mark s; TCPInfo := TCPInfo s;
     MemInfo := MemInfo s; SocketMem := SocketMem s;
     VegasInfo := VegasInfo s; DCTCPInfo := DCTCPInfo s; BBRInfo := v |}.

(* ================================================================== *)
(** ** Attribute codecs (conversions from RouteAttr.Value)             *)
(* ================================================================== *)

(** [maybeCopy]: the memory behind the returned pointer, and the flag.
    A source shorter than [size] is copied into a fresh zeroed buffer of
    [size] bytes; otherwise the pointer is [&src[0]], which panics on an
    empty source. *)
Definition maybeCopy (src : list byte) (size : Z) : outcome (list byte * bool) :=
  if len src <? size then
    let data := src ++ repeat x00 (Z.to_nat size - length src)%nat in
    Returns (data, true)
  else
    match src with
    | [] => Panics
    | _ :: _ => Returns (src, len src =? size)
    end.

(** The cast of [data] to a pointer to struct [T]: a non-nil pointer to
    the first [unsafe.Sizeof(T)] bytes behind [data]. *)
Definition castStruct (size : Z) (r : list byte * bool) : option (list byte) * bool :=
  (Some (firstn (Z.to_nat size) (fst r)), snd r).

Definition toMemInfo `{ABI} (raw : list byte) : outcome (option (list byte) * bool) :=
  r ← maybeCopy raw sizeof_MemInfo; mret (castStruct sizeof_MemInfo r).

Definition toLinuxTCPInfo `{ABI} (raw : list byte) : outcome (option (list byte) * bool) :=
  r ← maybeCopy raw sizeof_LinuxTCPInfo; mret (castStruct sizeof_LinuxTCPInfo r).

Definition toVegasInfo `{ABI} (raw : list byte) : outcome (option (list byte) * bool) :=
  r ← maybeCopy raw sizeof_VegasInfo; mret (castStruct sizeof_VegasInfo r).

(** The method [CongestionAlgorithm], [string(raw[:len(raw)-1])]: the
    slice expression panics when [raw] is empty (upper bound -1). *)
Definition CongestionAlgorithm_ (raw : list byte) : outcome (list byte * bool) :=
  if len raw - 1 <? 0 then Panics
  else Returns (firstn (Z.to_nat (len raw - 1)) raw, true).

Definition toUint8 (raw : list byte) : outcome (Z * bool) :=
  match raw with
  | [] => Returns (0, false)
  | b :: _ => Returns (byteZ b, true)
  end.

Definition toTOS (raw : list byte) : outcome (Z * bool) := toUint8 raw.
Definition toTCLASS (raw : list byte) : outcome (Z * bool) := toUint8 raw.
Definition toClassID (raw : list byte) : outcome (Z * bool) := toUint8 raw.

Definition toSockMemInfo `{ABI} (raw : list byte) : outcome (option (list byte) * bool) :=
  r ← maybeCopy raw sizeof_SocketMemInfo; mret (castStruct sizeof_SocketMemInfo r).

Definition toShutdown (raw : list byte) : outcome (Z * bool) := toUint8 raw.

Definition toDCTCPInfo `{ABI} (raw : list byte) : outcome (option (list byte) * bool) :=
  r ← maybeCopy raw sizeof_DCTCPInfo; mret (castStruct sizeof_DCTCPInfo r).

Definition toProtocol (raw : list byte) : outcome (Z * bool) := toUint8 raw.

(** [toMark]; the receiver is never nil where [Decode] calls it. *)
Definition toMark `{ABI} (raw : list byte) : outcome (Z * bool) :=
  if negb (len raw =? 4) then Returns (0, false)
  else Returns (uint_of native raw, true).

Definition toBBRInfo `{ABI} (raw : list byte) : outcome (option (list byte) * bool) :=
  r ← maybeCopy raw sizeof_BBRInfo; mret (castStruct sizeof_BBRInfo r).

(** The six fixed-size struct codecs. *)
Inductive structCodec : Type :=
| CMemInfo | CLinuxTCPInfo | CVegasInfo | CSockMemInfo | CDCTCPInfo | CBBRInfo.

Definition structSize `{ABI} (c : structCodec) : Z :=
  match c with
  | CMemInfo => sizeof_MemInfo
  | CLinuxTCPInfo => sizeof_LinuxTCPInfo
  | CVegasInfo => sizeof_VegasInfo
  | CSockMemInfo => sizeof_SocketMemInfo
  | CDCTCPInfo => sizeof_DCTCPInfo
  | CBBRInfo => sizeof_BBRInfo
  end.

(** What the Go compiler and the struct declarations guarantee of the
    parameters: the labels of one [switch] are pairwise distinct constants,
    [2*INET_DIAG_MAX] is representable in the [uint16] it is compared with,
    and the kernel structs, which all have fields, have a positive size. *)
Record abi_wf (A : ABI) : Prop := {
  labels_distinct : NoDup case_labels;
  max_fits_uint16 : 0 <= 2 * INET_DIAG_MAX <= 65535;
  sizes_positive : forall c : structCodec, 0 < structSize c
}.

Definition runCodec `{ABI} (c : structCodec) (raw : list byte)
  : outcome (option (list byte) * bool) :=
  match c with
  | CMemInfo => toMemInfo raw
  | CLinuxTCPInfo => toLinuxTCPInfo raw
  | CVegasInfo => toVegasInfo raw
  | CSockMemInfo => toSockMemInfo raw
  | CDCTCPInfo => toDCTCPInfo raw
  | CBBRInfo => toBBRInfo raw
  end.

(* ================================================================== *)
(** ** Decode: the snapshot assembler                                  *)
(* ================================================================== *)

(** [uint32(1) << uint8(t-1)]: a shift count of 32 or more yields 0. *)
Definition bitOf (t : Z) : Z := Z.shiftl 1 ((t - 1) mod 2 ^ 8) mod 2 ^ 32.

(** The types that are recognised but not decoded. *)
Definition undecoded `{ABI} : list Z :=
  [INET_DIAG_SKV6ONLY; INET_DIAG_LOCALS; INET_DIAG_PEERS; INET_DIAG_PAD;
   INET_DIAG_MD5SIG].

(** The [switch t] of [Decode]: the assignment made by the selected case
    and the resulting [ok] (initially false).  The cases that only print
    leave both unchanged. *)
Definition decodeAttribute `{ABI} (t : Z) (rta : list byte) (result : Snapshot)
  : outcome (Snapshot * bool) :=
  if t =? INET_DIAG_MEMINFO then
    '(v, ok) ← toMemInfo rta; mret (set_MemInfo v result, ok)
  else if t =? INET_DIAG_INFO then
    '(v, ok) ← toLinuxTCPInfo rta; mret (set_TCPInfo v result, ok)
  else if t =? INET_DIAG_VEGASINFO then
    '(v, ok) ← toVegasInfo rta; mret (set_VegasInfo v result, ok)
  else if t =? INET_DIAG_CONG then
    '(v, ok) ← CongestionAlgorithm_ rta; mret (set_CongestionAlgorithm v result, ok)
  else if t =? INET_DIAG_TOS then
    '(v, ok) ← toTOS rta; mret (set_TOS v result, ok)
  else if t =? INET_DIAG_TCLASS then
    '(v, ok) ← toTCLASS rta; mret (set_TClass v result, ok)
  else if t =? INET_DIAG_SKMEMINFO then
    '(v, ok) ← toSockMemInfo rta; mret (set_SocketMem v result, ok)
  else if t =? INET_DIAG_SHUTDOWN then
    '(v, ok) ← toShutdown rta; mret (set_Shutdown v result, ok)
  else if t =? INET_DIAG_DCTCPINFO then
    '(v, ok) ← toDCTCPInfo rta; mret (set_DCTCPInfo v result, ok)
  else if t =? INET_DIAG_PROTOCOL then
    '(v, ok) ← toProtocol rta; mret (set_Protocol v result, ok)
  else if t =? INET_DIAG_SKV6ONLY then mret (result, false)
  else if t =? INET_DIAG_LOCALS then mret (result, false)
  else if t =? INET_DIAG_PEERS then mret (result, false)
  else if t =? INET_DIAG_PAD then mret (result, false)
  else if t =? INET_DIAG_MARK then
    '(v, ok) ← toMark rta; mret (set_Mark v result, ok)
  else if t =? INET_DIAG_BBRINFO then
    '(v, ok) ← toBBRInfo rta; mret (set_BBRInfo v result, ok)
  else if t =? INET_DIAG_CLASS_ID then
    '(v, ok) ← toClassID rta; mret (set_ClassID v result, ok)
  else if t =? INET_DIAG_MD5SIG then mret (result, false)
  else mret (result, false).

(** The body of [for t, raw := range ar.Attributes], from index [t] on. *)
Fixpoint decodeAttributes `{ABI} (t : Z) (attrs : list (option (list byte)))
    (result : Snapshot) : outcome Snapshot :=
  match attrs with
  | [] => Returns result
  | None :: rest => decodeAttributes (t + 1) rest result
  | Some rta :: rest =>
      '(result1, ok) ← decodeAttribute t rta result;
      let bit := bitOf t in
      let result2 := set_Observed (Z.lor (Observed result1) bit) result1 in
      let result3 :=
        if negb ok
        then set_NotFullyParsed (Z.lor (NotFullyParsed result2) bit) result2
        else result2 in
      decodeAttributes (t + 1) rest result3
  end.

(** The text of [fmt.Errorf("error empty record")]. *)
Definition emptyRecordText : list byte :=
  [x65; x72; x72; x6f; x72; x20; x65; x6d; x70; x74; x79; x20;
   x72; x65; x63; x6f; x72; x64].

Definition Decode `{ABI} (ar : ArchivalRecord)
  : outcome (option Metadata * option Snapshot * option error) :=
  let result := set_SnapTimestamp (Timestamp ar) emptySnapshot in
  match Metadata_ ar, RawIDM ar with
  | None, None => Returns (None, None, Some (Errorf emptyRecordText))
  | _, _ =>
      let parsed : error + Snapshot :=
        match RawIDM ar with
        | Some raw =>
            match RawParse raw with
            | inl e => inl (Sentinel e)
            | inr idm => inr (set_InetDiagMsg (Some idm) result)
            end
        | None => inr result
        end in
      match parsed with
      | inl e => Returns (None, None, Some e)
      | inr result1 =>
          result2 ← decodeAttributes 0 (Attributes ar) result1;
          mret (Metadata_ ar, Some result2, None)
      end
  end.

(* ================================================================== *)
(** ** ParseRouteAttr: the TLV splitter                                *)
(* ================================================================== *)

(** Modelled from the spec: the constant [SizeofRtAttr] is not among the
    sources; it is the minimum attribute header size, a header being the
    total length and the type, two 16-bit fields. *)
Definition SizeofRtAttr : Z := 4.

(** Modelled from the spec: the function [rtaAlignOf] is not among the
    sources; it rounds a length up to the alignment boundary of 4 bytes. *)
Definition rtaAlignOf (attrlen : Z) : Z := (attrlen + 3) / 4 * 4.

(** Modelled from the spec: the function [netlinkRouteAttrAndValue] is not
    among the sources.  It reads the header at the front of [b] (total
    length, then type, native byte order), fails when the attribute is
    truncated (declared length below the header size or beyond the bytes
    that remain), and otherwise yields the header, the bytes after it, and
    the declared length rounded up to the alignment boundary. *)
Definition netlinkRouteAttrAndValue (o : ByteOrder) (b : list byte)
  : sentinel + (RtAttr * list byte * Z) :=
  let a := {| RtaLen := uint_of o (firstn 2 b);
              RtaType := uint_of o (firstn 2 (skipn 2 b)) |} in
  if (RtaLen a <? SizeofRtAttr) || (len b <? RtaLen a)
  then inl ErrTruncatedAttribute
  else inr (a, skipn (Z.to_nat SizeofRtAttr) b, rtaAlignOf (RtaLen a)).

(** Slice expressions [v[:n]] and [b[n:]]; out-of-range bounds panic. *)
Definition sliceTo (v : list byte) (n : Z) : outcome (list byte) :=
  if (n <? 0) || (len v <? n) then Panics else Returns (firstn (Z.to_nat n) v).

Definition sliceFrom (b : list byte) (n : Z) : outcome (list byte) :=
  if (n <? 0) || (len b <? n) then Panics else Returns (skipn (Z.to_nat n) b).

(** The loop of [ParseRouteAttr]; one unit of fuel per iteration. *)
Fixpoint parseRouteAttrLoop (o : ByteOrder) (fuel : nat) (b : list byte)
    (attrs : list NetlinkRouteAttr)
  : outcome (list NetlinkRouteAttr * option error) :=
  if negb (SizeofRtAttr <=? len b) then Returns (attrs, None)
  else
    match fuel with
    | O => OutOfFuel
    | S fuel' =>
        match netlinkRouteAttrAndValue o b with
        | inl e => Returns ([], Some (Sentinel e))
        | inr (a, vbuf, alen) =>
            value ← sliceTo vbuf (RtaLen a - SizeofRtAttr);
            let ra := {| Attr := a; Value := value |} in
            b' ← sliceFrom b alen;
            parseRouteAttrLoop o fuel' b' (attrs ++ [ra])
        end
    end.

Definition ParseRouteAttr (o : ByteOrder) (b : list byte)
  : outcome (list NetlinkRouteAttr * option error) :=
  parseRouteAttrLoop o (length b) b [].

(* ================================================================== *)
(** ** MakeArchivalRecord: the record extractor                        *)
(* ================================================================== *)

Definition isLocal `{ABI} (addr : list byte) : bool :=
  IsLoopback addr || IsLinkLocalUnicast addr || IsMulticast addr
  || IsUnspecified addr.

(** First loop: the largest attribute type, starting from 0. *)
Definition maxAttrTypeOf (attrs : list NetlinkRouteAttr) : Z :=
  fold_left (fun m a => if RtaType (Attr a) >? m then RtaType (Attr a) else m)
            attrs 0.

(** The clamp to [2*INET_DIAG_MAX]. *)
Definition clampType `{ABI} (m : Z) : Z :=
  if m >? 2 * INET_DIAG_MAX then 2 * INET_DIAG_MAX else m.

(** [table[t] = v]; an index out of range panics. *)
Definition store (table : list (option (list byte))) (t : Z)
    (v : option (list byte)) : outcome (list (option (list byte))) :=
  if (t <? 0) || (len table <=? t) then Panics
  else Returns (<[Z.to_nat t := v]> table).

(** Second loop: fill the table, skipping types above the bound. *)
Fixpoint fillAttributes (maxAttrType : Z) (attrs : list NetlinkRouteAttr)
    (table : list (option (list byte))) : outcome (list (option (list byte))) :=
  match attrs with
  | [] => Returns table
  | a :: rest =>
      let t := RtaType (Attr a) in
      if t >? maxAttrType then fillAttributes maxAttrType rest table
      else
        table' ← store table t (Some (Value a));
        fillAttributes maxAttrType rest table'
  end.

(** Lines 81-103: the attribute table of a record.  [maxAttrType+1] is
    computed in [uint16]. *)
Definition buildAttributes `{ABI} (attrs : list NetlinkRouteAttr)
  : outcome (list (option (list byte))) :=
  let maxAttrType := clampType (maxAttrTypeOf attrs) in
  let n := (maxAttrType + 1) mod 2 ^ 16 in
  fillAttributes maxAttrType attrs (repeat None (Z.to_nat n)).

Definition MakeArchivalRecord `{ABI} (msg : NetlinkMessage) (skipLocal : bool)
  : outcome (option ArchivalRecord * option error) :=
  if negb (Type_ (Header msg) =? 20) then
    Returns (None, Some (Sentinel ErrNotType20))
  else
    let '(raw, attrBytes) := SplitInetDiagMsg (Data msg) in
    match raw with
    | None => Returns (None, Some (Sentinel ErrParseFailed))
    | Some rawIDM =>
        let filtered : option (option ArchivalRecord * option error) :=
          if skipLocal then
            match RawParse rawIDM with
            | inl e => Some (None, Some (Sentinel e))
            | inr idm =>
                if isLocal (SrcIP idm) || isLocal (DstIP idm)
                then Some (None, None) else None
            end
          else None in
        match filtered with
        | Some early => Returns early
        | None =>
            '(attrs, err) ← ParseRouteAttr native attrBytes;
            match err with
            | Some e => Returns (None, Some e)
            | None =>
                table ← buildAttributes attrs;
                mret (Some {| Timestamp := 0; RawIDM := Some rawIDM;
                              Attributes := table; Metadata_ := None |},
                      None)
            end
        end
    end.

(* ================================================================== *)
(** ** A sample ABI                                                    *)
(* ================================================================== *)

(** One instance of the parameters, used to run the functions on concrete
    inputs: the attribute codes of Linux's [inet_diag.h], struct sizes of a
    64-bit build, a 72-byte diagnostic header with the source address at
    offset 8 and the destination address at offset 24, and address
    predicates that only recognise the all-zero (unspecified) address. *)
Definition sampleSplit (data : list byte) : option (list byte) * list byte :=
  if len data <? 72 then (None, [])
  else (Some (firstn 72 data), skipn 72 data).

Definition sampleParse (raw : list byte) : sentinel + list byte :=
  if len raw <? 72 then inl ErrParseFailed else inr (firstn 72 raw).

Definition allZero (addr : list byte) : bool :=
  forallb (fun b => byteZ b =? 0) addr.

Definition linux_amd64 : ABI :=
  {| native := LittleEndian;
     INET_DIAG_MEMINFO := 1; INET_DIAG_INFO := 2; INET_DIAG_VEGASINFO := 3;
     INET_DIAG_CONG := 4; INET_DIAG_TOS := 5; INET_DIAG_TCLASS := 6;
     INET_DIAG_SKMEMINFO := 7; INET_DIAG_SHUTDOWN := 8;
     INET_DIAG_DCTCPINFO := 9; INET_DIAG_PROTOCOL := 10;
     INET_DIAG_SKV6ONLY := 11; INET_DIAG_LOCALS := 12; INET_DIAG_PEERS := 13;
     INET_DIAG_PAD := 14; INET_DIAG_MARK := 15; INET_DIAG_BBRINFO := 16;
     INET_DIAG_CLASS_ID := 17; INET_DIAG_MD5SIG := 18; INET_DIAG_MAX := 19;
     sizeof_MemInfo := 16; sizeof_LinuxTCPInfo := 232; sizeof_VegasInfo := 16;
     sizeof_SocketMemInfo := 36; sizeof_DCTCPInfo := 16; sizeof_BBRInfo := 24;
     SplitInetDiagMsg := sampleSplit;
     RawParse := sampleParse;
     SrcIP := fun idm => firstn 16 (skipn 8 idm);
     DstIP := fun idm => firstn 16 (skipn 24 idm);
     IsLoopback := fun _ => false;
     IsLinkLocalUnicast := fun _ => false;
     IsMulticast := fun _ => false;
     IsUnspecified := allZero |}.

(** A record that carries only connection metadata and an attribute table. *)
Definition metadataRecord (attrs : list (option (list byte))) : ArchivalRecord :=
  {| Timestamp := 0; RawIDM := None; Attributes := attrs;
     Metadata_ := Some {| UUID := []; Sequence := 0; StartTime := 0 |} |}.

(* ================================================================== *)
(** ** The attribute table, as the specification words it              *)
(* ================================================================== *)

(** The maximum observed attribute type (0 when there is none). *)
Definition maxObserved (attrs : list NetlinkRouteAttr) : Z :=
  foldr (fun a m => Z.max (RtaType (Attr a)) m) 0 attrs.

(** The value of the last attribute of type [t], nil when there is none. *)
Fixpoint lastValue (t : Z) (attrs : list NetlinkRouteAttr) : option (list byte) :=
  match attrs with
  | [] => None
  | a :: rest =>
      match lastValue t rest with
      | Some v => Some v
      | None => if RtaType (Attr a) =? t then Some (Value a) else None
      end
  end.

(** A dump message: a 72-byte header with non-zero addresses, then a
    congestion-algorithm attribute, an attribute of type 100, and a second
    attribute of the congestion-algorithm type. *)
Definition sampleMessage : NetlinkMessage :=
  mkMsg 20 NLM_F_MULTI 1 1
    (repeat x01 72
     ++ [x0a; x00; x04; x00; x63; x75; x62; x69; x63; x00; x00; x00]
     ++ [x05; x00; x64; x00; x01; x00; x00; x00]
     ++ [x05; x00; x04; x00; x07; x00; x00; x00]).

(** The bytes of the string "cubic" and its terminating NUL. *)
Definition cubic : list byte := [x63; x75; x62; x69; x63; x00].

(* ================================================================== *)
(** ** Reading a classifier result                                     *)
(* ================================================================== *)

(** The three components of what the classifier returns. *)
Definition accepted (r : classified * list printed) : option NetlinkMessage :=
  fst (fst (fst r)).

Definition continues (r : classified * list printed) : bool :=
  snd (fst (fst r)).

Definition failure (r : classified * list printed) : option error :=
  snd (fst r).

(* ================================================================== *)
(** ** Reading a snapshot                                              *)
(* ================================================================== *)

(** The two mask updates that end an iteration of the loop of [Decode],
    for the entry of index [t] whose case left the flag [ok]. *)
Definition markAttribute (t : Z) (ok : bool) (s : Snapshot) : Snapshot :=
  let bit := bitOf t in
  let s2 := set_Observed (Z.lor (Observed s) bit) s in
  if negb ok then set_NotFullyParsed (Z.lor (NotFullyParsed s2) bit) s2 else s2.

(** The [case] label that calls a struct codec, and the field it fills. *)
Definition codecLabel `{ABI} (c : structCodec) : Z :=
  match c with
  | CMemInfo => INET_DIAG_MEMINFO
  | CLinuxTCPInfo => INET_DIAG_INFO
  | CVegasInfo => INET_DIAG_VEGASINFO
  | CSockMemInfo => INET_DIAG_SKMEMINFO
  | CDCTCPInfo => INET_DIAG_DCTCPINFO
  | CBBRInfo => INET_DIAG_BBRINFO
  end.

Definition codecField (c : structCodec) (s : Snapshot) : option (list byte) :=
  match c with
  | CMemInfo => MemInfo s
  | CLinuxTCPInfo => TCPInfo s
  | CVegasInfo => VegasInfo s
  | CSockMemInfo => SocketMem s
  | CDCTCPInfo => DCTCPInfo s
  | CBBRInfo => BBRInfo s
  end.

(** The one-byte attributes, their labels and their fields. *)
Inductive scalarCodec : Type :=
| STOS | STClass | SClassID | SShutdown | SProtocol.

Definition scalarLabel `{ABI} (k : scalarCodec) : Z :=
  match k with
  | STOS => INET_DIAG_TOS
  | STClass => INET_DIAG_TCLASS
  | SClassID => INET_DIAG_CLASS_ID
  | SShutdown => INET_DIAG_SHUTDOWN
  | SProtocol => INET_DIAG_PROTOCOL
  end.

Definition scalarField (k : scalarCodec) (s : Snapshot) : Z :=
  match k with
  | STOS => TOS s
  | STClass => TClass s
  | SClassID => ClassID s
  | SShutdown => Shutdown s
  | SProtocol => Protocol s
  end.

(** The entry of the attribute table at type [T], nil when [T] is outside
    the table. *)
Definition entryAt (ar : ArchivalRecord) (T : Z) : option (list byte) :=
  if T <? 0 then None
  else match Attributes ar !! Z.to_nat T with
       | Some e => e
       | None => None
       end.

(* ================================================================== *)
(** ** Reading a split result                                          *)
(* ================================================================== *)

(** The attributes [front], followed by those of a successful split
    [r]; a failed, panicking or unfinished split is unchanged. *)
Definition prependAttrs (front : list NetlinkRouteAttr)
    (r : outcome (list NetlinkRouteAttr * option error))
  : outcome (list NetlinkRouteAttr * option error) :=
  match r with
  | Returns (attrs, None) => Returns (front ++ attrs, None)
  | other => other
  end.

(* ================================================================== *)
(** ** getSnapshots: the receive loop                                  *)
(* ================================================================== *)

(** The body of [for i := range msgs] in [getSnapshots], from some message
    of the batch on: the records collected so far and the flag [done].
    The result is the error that makes [getSnapshots] return, or the
    records and the flag at the end of the batch.  What is printed is left
    out. *)
Fixpoint processBatch `{ABI} (seq pid : Z) (msgs : list NetlinkMessage)
    (archives : list (option ArchivalRecord)) (done : bool)
  : outcome (error + list (option ArchivalRecord) * bool) :=
  match msgs with
  | [] => Returns (inr (archives, done))
  | msg :: rest =>
      let '(m, shouldContinue, err) := fst (processSingleMessage native msg seq pid) in
      match err with
      | Some e => Returns (inl e)
      | None =>
          let collected : outcome (error + list (option ArchivalRecord)) :=
            match m with
            | Some m' =>
                '(cur, err) ← MakeArchivalRecord m' false;
                match err with
                | Some e => Returns (inl e)
                | None => Returns (inr (archives ++ [cur]))
                end
            | None => Returns (inr archives)
            end in
          step ← collected;
          match step with
          | inl e => Returns (inl e)
          | inr archives' =>
              processBatch seq pid rest archives'
                (if negb shouldContinue then true else done)
          end
      end
  end.

(** The outer [for] of [getSnapshots].  The socket is a script: the
    results of the successive calls of [s.Receive()], each an error or a
    batch of messages.  A call the script does not cover is [OutOfFuel]. *)
Fixpoint receiveLoop `{ABI} (seq pid : Z)
    (script : list (error + list NetlinkMessage))
    (archives : list (option ArchivalRecord))
  : outcome (error + list (option ArchivalRecord)) :=
  match script with
  | [] => OutOfFuel
  | inl e :: _ => Returns (inl e)
  | inr msgs :: later =>
      r ← processBatch seq pid msgs archives false;
      match r : error + list (option ArchivalRecord) * bool with
      | inl e => Returns (inl e)
      | inr (archives', done) =>
          if done then Returns (inr archives')
          else receiveLoop seq pid later archives'
      end
  end.

(** Whether the classifier asks to stop after a message. *)
Definition stops `{ABI} (seq pid : Z) (m : NetlinkMessage) : bool :=
  negb (continues (processSingleMessage native m seq pid)).

(* ================================================================== *)
(** ** Proof automation                                                *)
(* ================================================================== *)

(** Case analysis on the codec call a [switch] case binds. *)
Ltac run_codec :=
  match goal with
  | Hr : context [mbind _ ?m] |- _ =>
      let r := fresh "r" in
      destruct m as [r | |] eqn:?; cbn in Hr; try discriminate Hr;
      try (destruct r); cbn in Hr
  end.

(** The labels of one [switch] are pairwise different. *)
Ltac distinct_labels wf :=
  let Hnd := fresh "Hnd" in
  pose proof (labels_distinct _ wf) as Hnd; unfold case_labels in Hnd;
  repeat (let Hx := fresh "Hx" in apply NoDup_cons in Hnd as [Hx Hnd]);
  repeat match goal with
         | Hx : _ ∉ _ :: _ |- _ =>
             let Hy := fresh "Hne" in apply not_elem_of_cons in Hx as [Hy Hx]
         end.

(** Closes the cases of the classifier once its tests are decided. *)
Ltac classify_finish :=
  cbn; repeat split; intros;
  repeat match goal with
         | H : _ /\ _ |- _ => destruct H
         | H : ?a = ?b -> _ /\ _, E : ?a = ?b |- _ => destruct (H E); clear H
         end;
  try discriminate; try contradiction; try lia; try tauto; try congruence; auto.

(** Decides the tests of the [switch] in hypothesis [Hr], dropping the
    cases that contradict what is known of the labels. *)
Ltac switch_at Hr :=
  unfold decodeAttribute in Hr;
  repeat match type of Hr with
         | context [if ?a =? ?b then _ else _] =>
             destruct (Z.eqb_spec a b); [try (exfalso; congruence) |]
         end;
  try (exfalso; congruence).

(* ================================================================== *)
(** ** Theorems                                                        *)
(* ================================================================== *)


(* ------------------------------------------------------------------ *)
(** *** Message classifier                                             *)
(* ------------------------------------------------------------------ *)

(** C7.  Whatever the type and flags of the message: a sequence number
    different from the expected one yields [ErrBadSequence], a matching
    sequence number with a different process id yields [ErrBadPid]; in both
    cases no message is accepted and the error is non-nil. *)
Theorem classify_mismatch_is_error (native : ByteOrder) (m : NetlinkMessage) (seq pid : Z) :
  Seq (Header m) <> seq \/ Pid (Header m) <> pid ->
  exists e : sentinel,
    fst (processSingleMessage native m seq pid) = (None, false, Some (Sentinel e))
    /\ (e = ErrBadSequence \/ e = ErrBadPid)
    /\ (Seq (Header m) <> seq -> e = ErrBadSequence)
    /\ (Seq (Header m) = seq -> e = ErrBadPid).
Proof.
  intros Hmis. unfold processSingleMessage.
  destruct (Z.eqb_spec (Seq (Header m)) seq) as [Hs | Hs]; simpl.
  - destruct (Z.eqb_spec (Pid (Header m)) pid) as [Hp | Hp]; simpl.
    + destruct Hmis; contradiction.
    + exists ErrBadPid. repeat split; auto. intros; contradiction.
  - exists ErrBadSequence. repeat split; auto. intros; contradiction.
Qed.

Lemma classify_mismatch_is_error_witness :
  exists e : sentinel,
    fst (processSingleMessage BigEndian (mkMsg 20 NLM_F_MULTI 5 9 [x01]) 5 10)
    = (None, false, Some (Sentinel e))
    /\ (e = ErrBadSequence \/ e = ErrBadPid)
    /\ (5 <> 5 -> e = ErrBadSequence)
    /\ (5 = 5 -> e = ErrBadPid).
Proof.
  apply (classify_mismatch_is_error BigEndian (mkMsg 20 NLM_F_MULTI 5 9 [x01]) 5 10).
  right. simpl. lia.
Defined.

(** C6, as stated, fails: a DONE message whose sequence number is not the
    expected one is answered with an error. *)
Lemma classify_done_any_seq_counterexample :
  Type_ (Header (mkMsg NLMSG_DONE 0 1 9 [])) = NLMSG_DONE
  /\ fst (processSingleMessage LittleEndian (mkMsg NLMSG_DONE 0 1 9 []) 2 9)
     = (None, false, Some (Sentinel ErrBadSequence))
  /\ fst (processSingleMessage LittleEndian (mkMsg NLMSG_DONE 0 1 9 []) 2 9)
     <> (None, false, None).
Proof. repeat split. discriminate. Qed.

(** C6, amended.  A message of type NLMSG_DONE whose sequence number and
    process id are the expected ones yields (nil, false, nil), and nothing
    is printed. *)
Theorem classify_done (native : ByteOrder) (m : NetlinkMessage) (seq pid : Z) :
  Type_ (Header m) = NLMSG_DONE ->
  Seq (Header m) = seq ->
  Pid (Header m) = pid ->
  processSingleMessage native m seq pid = ((None, false, None), []).
Proof.
  intros Ht Hs Hp. unfold processSingleMessage.
  rewrite Hs, Hp, Ht, !Z.eqb_refl. reflexivity.
Qed.

Lemma classify_done_witness :
  processSingleMessage LittleEndian (mkMsg NLMSG_DONE NLM_F_MULTI 7 9 [x2a]) 7 9
  = ((None, false, None), []).
Proof.
  apply (classify_done LittleEndian (mkMsg NLMSG_DONE NLM_F_MULTI 7 9 [x2a]) 7 9);
    reflexivity.
Defined.

(** C10, as stated, fails: a non-zero error code is printed, and the
    message is handed back as an accepted message with a nil error. *)
Lemma classify_error_nonzero_counterexample :
  Type_ (Header (mkMsg NLMSG_ERROR 0 7 9 [x02; x00; x00; x00])) = NLMSG_ERROR
  /\ errorCode LittleEndian (mkMsg NLMSG_ERROR 0 7 9 [x02; x00; x00; x00]) = 2
  /\ processSingleMessage LittleEndian (mkMsg NLMSG_ERROR 0 7 9 [x02; x00; x00; x00]) 7 9
     = ((Some (mkMsg NLMSG_ERROR 0 7 9 [x02; x00; x00; x00]), false, None),
        [PrintErrno (-2)]).
Proof. repeat split. Qed.

(** C10, amended.  For a message of type NLMSG_ERROR that passes the
    sequence and pid checks and carries at least 4 payload bytes, the first
    4 bytes are read as a native-endian error code.  Code 0 yields
    (nil, false, nil).  A non-zero code is only printed (negated): the
    message itself is returned as accepted, with a nil error, and more
    messages are expected exactly when it has the multi-part flag. *)
Theorem classify_error_message (native : ByteOrder) (m : NetlinkMessage) (seq pid : Z) :
  Type_ (Header m) = NLMSG_ERROR ->
  Seq (Header m) = seq ->
  Pid (Header m) = pid ->
  4 <= len (Data m) ->
  (errorCode native m = 0 ->
     processSingleMessage native m seq pid = ((None, false, None), []))
  /\ (errorCode native m <> 0 ->
     processSingleMessage native m seq pid
     = ((Some m, negb (Z.land (Flags (Header m)) NLM_F_MULTI =? 0), None),
        [PrintErrno (int32 (- errorCode native m))])).
Proof.
  intros Ht Hs Hp Hlen. unfold processSingleMessage, errorCode.
  rewrite Hs, Hp, Ht, !Z.eqb_refl. simpl negb. cbv iota.
  change (NLMSG_ERROR =? NLMSG_DONE) with false. cbv iota.
  destruct (Z.ltb_spec (len (Data m)) 4) as [Hlt | _]; [lia |].
  split; intros Hc.
  - rewrite Hc. reflexivity.
  - destruct (Z.eqb_spec (int32 (uint_of native (firstn 4 (Data m)))) 0) as [E | _];
      [contradiction |].
    destruct (Z.land (Flags (Header m)) NLM_F_MULTI =? 0); reflexivity.
Qed.

Lemma classify_error_message_witness :
  (errorCode BigEndian (mkMsg NLMSG_ERROR NLM_F_MULTI 7 9 [xff; xff; xff; xfe]) = 0 ->
     processSingleMessage BigEndian (mkMsg NLMSG_ERROR NLM_F_MULTI 7 9 [xff; xff; xff; xfe]) 7 9
     = ((None, false, None), []))
  /\ (errorCode BigEndian (mkMsg NLMSG_ERROR NLM_F_MULTI 7 9 [xff; xff; xff; xfe]) <> 0 ->
     processSingleMessage BigEndian (mkMsg NLMSG_ERROR NLM_F_MULTI 7 9 [xff; xff; xff; xfe]) 7 9
     = ((Some (mkMsg NLMSG_ERROR NLM_F_MULTI 7 9 [xff; xff; xff; xfe]),
         negb (Z.land NLM_F_MULTI NLM_F_MULTI =? 0), None),
        [PrintErrno (int32 (- errorCode BigEndian
                                 (mkMsg NLMSG_ERROR NLM_F_MULTI 7 9 [xff; xff; xff; xfe])))])).
Proof.
  apply (classify_error_message BigEndian
           (mkMsg NLMSG_ERROR NLM_F_MULTI 7 9 [xff; xff; xff; xfe]) 7 9);
    reflexivity.
Defined.

Example classify_error_enoent :
  processSingleMessage BigEndian (mkMsg NLMSG_ERROR NLM_F_MULTI 7 9 [xff; xff; xff; xfe]) 7 9
  = ((Some (mkMsg NLMSG_ERROR NLM_F_MULTI 7 9 [xff; xff; xff; xfe]), true, None),
     [PrintErrno 2]).
Proof. reflexivity. Qed.

(* ------------------------------------------------------------------ *)
(** *** Attribute codecs                                               *)
(* ------------------------------------------------------------------ *)

Lemma maybeCopy_short (src : list byte) (size : Z) :
  len src < size ->
  maybeCopy src size
  = Returns (src ++ repeat x00 (Z.to_nat size - length src)%nat, true).
Proof.
  intros Hlt. unfold maybeCopy.
  destruct (Z.ltb_spec (len src) size) as [_ | Hge]; [reflexivity | lia].
Qed.

Lemma padded_length (src : list byte) (size : Z) :
  len src < size ->
  length (src ++ repeat x00 (Z.to_nat size - length src)%nat) = Z.to_nat size.
Proof.
  unfold len. intros Hlt. rewrite length_app, repeat_length. lia.
Qed.

(** C1, as stated, fails: on an input shorter than the struct the flag
    returned is true, not false. *)
Lemma struct_codec_short_flag_counterexample :
  len [x2a] < structSize (H := linux_amd64) CMemInfo
  /\ runCodec (H := linux_amd64) CMemInfo [x2a]
     = Returns (Some ([x2a] ++ repeat x00 15), true)
  /\ ~ (exists v, runCodec (H := linux_amd64) CMemInfo [x2a] = Returns (v, false)).
Proof.
  split; [reflexivity |]. split; [reflexivity |].
  intros [v Hv]. vm_compute in Hv. discriminate.
Qed.

(** C1, amended.  Each of the six fixed-size struct codecs, on an input
    strictly shorter than the struct, returns without failing a non-nil
    value made of the input bytes followed by zero bytes up to the struct
    size, together with the flag true. *)
Theorem struct_codec_short_input `{ABI} (c : structCodec) (raw : list byte) :
  len raw < structSize c ->
  runCodec c raw
  = Returns (Some (raw ++ repeat x00 (Z.to_nat (structSize c) - length raw)%nat), true).
Proof.
  intros Hlt.
  assert (Hgen : forall size, len raw < size ->
            (r ← maybeCopy raw size; mret (castStruct size r))
            = Returns (Some (raw ++ repeat x00 (Z.to_nat size - length raw)%nat), true)).
  { intros size Hs. rewrite (maybeCopy_short _ _ Hs). cbn.
    unfold castStruct; cbn. rewrite firstn_all2; [reflexivity |].
    rewrite (padded_length _ _ Hs). lia. }
  destruct c; cbn in Hlt |- *; apply Hgen, Hlt.
Qed.

Lemma struct_codec_short_input_witness :
  runCodec (H := linux_amd64) CBBRInfo [x01; x02; x03]
  = Returns (Some ([x01; x02; x03]
                   ++ repeat x00 (Z.to_nat (structSize (H := linux_amd64) CBBRInfo)
                                  - length [x01; x02; x03])%nat), true).
Proof.
  apply (struct_codec_short_input (H := linux_amd64) CBBRInfo [x01; x02; x03]).
  vm_compute. reflexivity.
Defined.

(** The codecs that check the length of their input return on every input. *)
Lemma toUint8_returns (raw : list byte) : exists r, toUint8 raw = Returns r.
Proof. destruct raw; simpl; eauto. Qed.

Lemma toMark_returns `{ABI} (raw : list byte) : exists r, toMark raw = Returns r.
Proof. unfold toMark. destruct (negb (len raw =? 4)); eauto. Qed.

Lemma maybeCopy_returns (src : list byte) (size : Z) :
  0 < size -> exists r, maybeCopy src size = Returns r.
Proof.
  intros Hpos. unfold maybeCopy.
  destruct (Z.ltb_spec (len src) size) as [Hlt | Hge]; [eauto |].
  destruct src as [| b src']; [| eauto].
  unfold len in Hge. simpl in Hge. lia.
Qed.

Lemma CongestionAlgorithm_returns (raw : list byte) :
  raw <> [] ->
  CongestionAlgorithm_ raw = Returns (firstn (length raw - 1) raw, true).
Proof.
  intros Hne. unfold CongestionAlgorithm_.
  destruct raw as [| b raw']; [contradiction |].
  unfold len. simpl length.
  destruct (Z.ltb_spec (Z.of_nat (S (length raw')) - 1) 0) as [Hlt | _]; [lia |].
  do 3 f_equal. lia.
Qed.

(** C4.  The code at the failing input: [CongestionAlgorithm] panics on the
    empty (non-nil) buffer, and so does [Decode] on a record whose
    INET_DIAG_CONG slot holds that buffer. *)
Theorem congestion_algorithm_empty_panics :
  CongestionAlgorithm_ [] = Panics
  /\ Decode (H := linux_amd64) (metadataRecord [None; None; None; None; Some []])
     = Panics.
Proof. split; reflexivity. Qed.

(** The same input, as it arrives from the wire: a congestion-algorithm
    attribute whose declared length is that of its header alone. *)
Example pipeline_empty_cong_panics :
  exists rec,
    MakeArchivalRecord (H := linux_amd64)
      (mkMsg 20 0 1 1 (repeat x01 72 ++ [x04; x00; x04; x00])) false
    = Returns (Some rec, None)
    /\ Attributes rec = [None; None; None; None; Some []]
    /\ Decode (H := linux_amd64) rec = Panics.
Proof. eexists. split; [reflexivity |]. split; reflexivity. Qed.

(* ------------------------------------------------------------------ *)
(** *** TLV splitter                                                   *)
(* ------------------------------------------------------------------ *)

(** C5, as stated, fails: a non-empty buffer shorter than an attribute
    header is answered with no attributes and no error. *)
Lemma split_short_nonempty_counterexample :
  [x01; x02] <> [] /\ len [x01; x02] < SizeofRtAttr
  /\ ParseRouteAttr LittleEndian [x01; x02] = Returns ([], None)
  /\ ~ (exists attrs e, ParseRouteAttr LittleEndian [x01; x02] = Returns (attrs, Some e)).
Proof.
  split; [discriminate |]. split; [reflexivity |]. split; [reflexivity |].
  intros (attrs & e & He). vm_compute in He. discriminate.
Qed.

(** C5, amended.  On every buffer shorter than the minimum attribute
    header size, empty or not, the splitter returns an empty attribute
    sequence and no error. *)
Theorem split_short_buffer (o : ByteOrder) (b : list byte) :
  len b < SizeofRtAttr ->
  ParseRouteAttr o b = Returns ([], None).
Proof.
  intros Hlt. unfold ParseRouteAttr.
  destruct (length b) as [| n] eqn:E; simpl;
    destruct (Z.leb_spec SizeofRtAttr (len b)); simpl; solve [reflexivity | lia].
Qed.

Lemma split_short_buffer_witness :
  ParseRouteAttr BigEndian [x00; x08; x00] = Returns ([], None).
Proof.
  apply (split_short_buffer BigEndian [x00; x08; x00]).
  vm_compute. reflexivity.
Defined.

(* ------------------------------------------------------------------ *)
(** *** Snapshot assembler: the two bit masks                          *)
(* ------------------------------------------------------------------ *)

Lemma linux_amd64_wf : abi_wf linux_amd64.
Proof.
  split.
  - unfold case_labels; simpl.
    apply (bool_decide_unpack _). vm_compute. exact I.
  - simpl. lia.
  - intros []; reflexivity.
Qed.

(** Bit [k] of [bitOf t] is set exactly when [k] is the shift count
    [uint8(t-1)] and that count is below the width of the mask. *)
Lemma bitOf_testbit (t k : Z) :
  0 <= k ->
  Z.testbit (bitOf t) k = (((t - 1) mod 2 ^ 8) =? k) && (k <? 32).
Proof.
  intros Hk. unfold bitOf.
  assert (Hs : 0 <= (t - 1) mod 2 ^ 8) by (apply Z.mod_pos_bound; lia).
  rewrite Z.shiftl_1_l.
  destruct (Z.ltb_spec k 32) as [Hlt | Hge].
  - rewrite Z.mod_pow2_bits_low by lia.
    rewrite Z.pow2_bits_eqb by exact Hs. now rewrite andb_true_r.
  - rewrite Z.mod_pow2_bits_high by lia. now rewrite andb_false_r.
Qed.

(** The [switch] assigns typed fields only: both masks are left alone. *)
Lemma decodeAttribute_masks `{ABI} (t : Z) (rta : list byte) (s s' : Snapshot) (ok : bool) :
  decodeAttribute t rta s = Returns (s', ok) ->
  Observed s' = Observed s /\ NotFullyParsed s' = NotFullyParsed s.
Proof.
  unfold decodeAttribute. intros Hr.
  repeat (match type of Hr with
          | context [if ?c then _ else _] => destruct c
          end);
  try run_codec; inversion Hr; subst; split; reflexivity.
Qed.

(** One iteration on a non-nil entry. *)
Lemma decodeAttributes_cons_some `{ABI} (t : Z) (rta : list byte)
    (rest : list (option (list byte))) (s s' : Snapshot) :
  decodeAttributes t (Some rta :: rest) s = Returns s' ->
  exists s1 ok s3,
    decodeAttribute t rta s = Returns (s1, ok)
    /\ Observed s3 = Z.lor (Observed s) (bitOf t)
    /\ NotFullyParsed s3 =
       (if ok then NotFullyParsed s else Z.lor (NotFullyParsed s) (bitOf t))
    /\ decodeAttributes (t + 1) rest s3 = Returns s'.
Proof.
  cbn [decodeAttributes]. intros Hr.
  destruct (decodeAttribute t rta s) as [[s1 ok] | |] eqn:E; cbn in Hr;
    try discriminate Hr.
  destruct (decodeAttribute_masks _ _ _ _ _ E) as [HO HN].
  eexists s1, ok, _. split; [reflexivity |]. split; [| split; [| exact Hr]].
  - destruct ok; cbn; now rewrite HO.
  - destruct ok; cbn; now rewrite HN.
Qed.

(** Loop invariant for [Observed]: a bit is set at the end exactly when it
    was set at the start or is the bit of a non-nil entry. *)
Lemma decodeAttributes_observed `{ABI} (attrs : list (option (list byte))) :
  forall (t : Z) (s s' : Snapshot),
    decodeAttributes t attrs s = Returns s' ->
    forall k : Z,
      Z.testbit (Observed s') k = true <->
      Z.testbit (Observed s) k = true
      \/ exists (i : nat) (rta : list byte),
           attrs !! i = Some (Some rta)
           /\ Z.testbit (bitOf (t + Z.of_nat i)) k = true.
Proof.
  induction attrs as [| [rta |] rest IH]; intros t s s' Hr k.
  - cbn in Hr. inversion Hr; subst. split; [auto |].
    intros [Hk | (i & r & Hi & _)]; [exact Hk | discriminate Hi].
  - destruct (decodeAttributes_cons_some _ _ _ _ _ Hr)
      as (s1 & ok & s3 & _ & HO & _ & Hrest).
    rewrite (IH _ _ _ Hrest k), HO, Z.lor_spec, orb_true_iff. split.
    + intros [[Hk | Hk] | (i & r & Hi & Hb)].
      * left; exact Hk.
      * right. exists 0%nat, rta. split; [reflexivity |].
        now replace (t + Z.of_nat 0) with t by lia.
      * right. exists (S i), r. split; [exact Hi |].
        now replace (t + Z.of_nat (S i)) with (t + 1 + Z.of_nat i) by lia.
    + intros [Hk | (i & r & Hi & Hb)]; [left; left; exact Hk |].
      destruct i as [| i].
      * left; right. now replace (t + Z.of_nat 0) with t in Hb by lia.
      * right. exists i, r. split; [exact Hi |].
        now replace (t + Z.of_nat (S i)) with (t + 1 + Z.of_nat i) in Hb by lia.
  - cbn [decodeAttributes] in Hr.
    rewrite (IH _ _ _ Hr k). split.
    + intros [Hk | (i & r & Hi & Hb)]; [left; exact Hk |].
      right. exists (S i), r. split; [exact Hi |].
      now replace (t + Z.of_nat (S i)) with (t + 1 + Z.of_nat i) by lia.
    + intros [Hk | (i & r & Hi & Hb)]; [left; exact Hk |].
      destruct i as [| i]; [discriminate Hi |].
      right. exists i, r. split; [exact Hi |].
      now replace (t + Z.of_nat (S i)) with (t + 1 + Z.of_nat i) in Hb by lia.
Qed.

(** Loop invariant: [NotFullyParsed] stays within [Observed]. *)
Lemma decodeAttributes_subset `{ABI} (attrs : list (option (list byte))) :
  forall (t : Z) (s s' : Snapshot),
    decodeAttributes t attrs s = Returns s' ->
    (forall k, Z.testbit (NotFullyParsed s) k = true -> Z.testbit (Observed s) k = true) ->
    forall k, Z.testbit (NotFullyParsed s') k = true -> Z.testbit (Observed s') k = true.
Proof.
  induction attrs as [| [rta |] rest IH]; intros t s s' Hr Hinv.
  - cbn in Hr. inversion Hr; subst. exact Hinv.
  - destruct (decodeAttributes_cons_some _ _ _ _ _ Hr)
      as (s1 & ok & s3 & _ & HO & HN & Hrest).
    apply (IH _ _ _ Hrest). intros k. rewrite HO, HN, Z.lor_spec, orb_true_iff.
    destruct ok.
    + intros Hk. left. apply Hinv, Hk.
    + rewrite Z.lor_spec, orb_true_iff. intros [Hk | Hk]; [left; apply Hinv, Hk | right; exact Hk].
  - cbn [decodeAttributes] in Hr. apply (IH _ _ _ Hr Hinv).
Qed.

(** Loop invariant for [NotFullyParsed]: bits are never cleared, and the
    bit of a non-nil entry whose case leaves [ok] false is set. *)
Lemma decodeAttributes_not_parsed `{ABI} (attrs : list (option (list byte))) :
  forall (t : Z) (s s' : Snapshot),
    decodeAttributes t attrs s = Returns s' ->
    forall k : Z,
      (Z.testbit (NotFullyParsed s) k = true
       \/ exists (i : nat) (rta : list byte),
            attrs !! i = Some (Some rta)
            /\ (forall s0 r, decodeAttribute (t + Z.of_nat i) rta s0 = Returns r -> snd r = false)
            /\ Z.testbit (bitOf (t + Z.of_nat i)) k = true) ->
      Z.testbit (NotFullyParsed s') k = true.
Proof.
  induction attrs as [| [rta |] rest IH]; intros t s s' Hr k Hk.
  - cbn in Hr. inversion Hr; subst.
    destruct Hk as [Hk | (i & r & Hi & _)]; [exact Hk | discriminate Hi].
  - destruct (decodeAttributes_cons_some _ _ _ _ _ Hr)
      as (s1 & ok & s3 & Hd & _ & HN & Hrest).
    apply (IH _ _ _ Hrest k). rewrite HN.
    destruct Hk as [Hk | (i & r & Hi & Hno & Hb)].
    + left. destruct ok; [exact Hk |]. rewrite Z.lor_spec, Hk. reflexivity.
    + destruct i as [| i].
      * cbn in Hi. inversion Hi; subst r. left.
        replace (t + Z.of_nat 0) with t in * by lia.
        specialize (Hno _ _ Hd). cbn in Hno. subst ok.
        rewrite Z.lor_spec, Hb. apply orb_true_r.
      * right. exists i, r. split; [exact Hi |].
        now replace (t + 1 + Z.of_nat i) with (t + Z.of_nat (S i)) by lia.
  - cbn [decodeAttributes] in Hr. apply (IH _ _ _ Hr k).
    destruct Hk as [Hk | (i & r & Hi & Hno & Hb)]; [left; exact Hk |].
    destruct i as [| i]; [discriminate Hi |].
    right. exists i, r. split; [exact Hi |].
    now replace (t + 1 + Z.of_nat i) with (t + Z.of_nat (S i)) by lia.
Qed.

(** What an accepted record tells about the run of [Decode]. *)
Lemma Decode_accepted `{ABI} (ar : ArchivalRecord) (md : option Metadata) (snap : Snapshot) :
  Decode ar = Returns (md, Some snap, None) ->
  exists s0 : Snapshot,
    Observed s0 = 0 /\ NotFullyParsed s0 = 0
    /\ decodeAttributes 0 (Attributes ar) s0 = Returns snap.
Proof.
  unfold Decode. intros Hr.
  assert (Hgen : forall s0 : Snapshot,
            (result2 ← decodeAttributes 0 (Attributes ar) s0;
             mret (Metadata_ ar, Some result2, @None error)) = Returns (md, Some snap, None) ->
            decodeAttributes 0 (Attributes ar) s0 = Returns snap).
  { intros s0 Hs. destruct (decodeAttributes 0 (Attributes ar) s0); cbn in Hs;
      inversion Hs; reflexivity. }
  destruct (Metadata_ ar) as [m |], (RawIDM ar) as [raw |]; try discriminate Hr.
  - destruct (RawParse raw) as [e | idm]; [discriminate Hr |].
    eexists; split; [| split; [| apply Hgen, Hr]]; reflexivity.
  - eexists; split; [| split; [| apply Hgen, Hr]]; reflexivity.
  - destruct (RawParse raw) as [e | idm]; [discriminate Hr |].
    eexists; split; [| split; [| apply Hgen, Hr]]; reflexivity.
Qed.

(** For a type between 1 and 32 and a table of at most 257 entries, the
    only index whose bit is bit [T-1] is [T] itself. *)
Lemma bitOf_index (T : Z) (i : nat) :
  1 <= T <= 32 -> (i <= 256)%nat ->
  Z.testbit (bitOf (0 + Z.of_nat i)) (T - 1) = true <-> i = Z.to_nat T.
Proof.
  intros HT Hi. rewrite bitOf_testbit by lia.
  rewrite andb_true_iff, Z.eqb_eq, Z.ltb_lt.
  change (2 ^ 8) with 256. split.
  - intros [Hm _].
    destruct (Nat.eq_dec i 0%nat) as [-> | Hnz].
    + change ((0 + Z.of_nat 0 - 1) mod 256) with 255 in Hm. lia.
    + rewrite Z.mod_small in Hm by lia. lia.
  - intros ->. rewrite Z.mod_small by lia. lia.
Qed.

(** C2, as stated, fails: index 0 and the indices above 32 are within the
    table's range (33 is below twice INET_DIAG_MAX), yet a non-nil entry
    there sets no bit of [Observed] at all. *)
Lemma decode_observed_out_of_mask_counterexample :
  (metadataRecord [Some [x01]]).(Attributes) !! 0%nat = Some (Some [x01])
  /\ (exists md snap,
        Decode (H := linux_amd64) (metadataRecord [Some [x01]])
        = Returns (md, Some snap, None)
        /\ Observed snap = 0)
  /\ (metadataRecord (repeat None 33 ++ [Some [x01]])).(Attributes) !! 33%nat
     = Some (Some [x01])
  /\ (exists md snap,
        Decode (H := linux_amd64) (metadataRecord (repeat None 33 ++ [Some [x01]]))
        = Returns (md, Some snap, None)
        /\ Observed snap = 0).
Proof.
  split; [reflexivity |]. split; [do 2 eexists; split; reflexivity |].
  split; [reflexivity |]. do 2 eexists; split; reflexivity.
Qed.

(** A number whose bits from 32 on are all clear fits 32 bits. *)
Lemma fits_uint32 (x : Z) :
  (forall k : Z, 32 <= k -> Z.testbit x k = false) -> 0 <= x < 2 ^ 32.
Proof.
  intros Hhigh.
  assert (Hnn : 0 <= x).
  { apply Z.bits_iff_nonneg_ex. exists 32. intros m Hm. apply Hhigh. lia. }
  assert (Hmod : x mod 2 ^ 32 = x).
  { apply Z.bits_inj'. intros k Hk.
    destruct (Z.ltb_spec k 32) as [Hlt | Hge].
    - apply Z.mod_pow2_bits_low. lia.
    - rewrite Z.mod_pow2_bits_high by lia. symmetry. apply Hhigh, Hge. }
  rewrite <- Hmod. apply Z.mod_pos_bound. lia.
Qed.

(** A bit that the loop sets is below the width of the mask. *)
Lemma bitOf_set_range (t k : Z) :
  Z.testbit (bitOf t) k = true -> 0 <= k < 32 /\ (t - 1) mod 2 ^ 8 = k.
Proof.
  intros Hb.
  destruct (Z.ltb_spec k 0) as [Hneg | Hnn].
  - rewrite Z.testbit_neg_r in Hb by exact Hneg. discriminate Hb.
  - rewrite bitOf_testbit in Hb by exact Hnn.
    apply andb_true_iff in Hb as [He Hl].
    apply Z.eqb_eq in He. apply Z.ltb_lt in Hl. lia.
Qed.

(** C2, amended.  For a record accepted by [Decode]: when the table has at
    most 257 entries, for every type T from 1 to 32, bit T-1 of [Observed]
    is set if and only if the entry at index T is non-nil, and no other bit
    of [Observed] is ever set, so that a non-nil entry at index 0 or at an
    index above 32 sets no bit; every bit set in [NotFullyParsed] is also
    set in [Observed]; and both masks are 32-bit numbers. *)
Theorem decode_observed_bits `{ABI} (ar : ArchivalRecord) (md : option Metadata)
    (snap : Snapshot) :
  Decode ar = Returns (md, Some snap, None) ->
  (len (Attributes ar) <= 257 ->
   (forall T : Z, 1 <= T <= 32 ->
      (Z.testbit (Observed snap) (T - 1) = true
       <-> exists raw, Attributes ar !! Z.to_nat T = Some (Some raw)))
   /\ (forall k : Z,
         Z.testbit (Observed snap) k = true ->
         exists (T : Z) (raw : list byte),
           1 <= T <= 32 /\ k = T - 1
           /\ Attributes ar !! Z.to_nat T = Some (Some raw)))
  /\ (forall k : Z,
        Z.testbit (NotFullyParsed snap) k = true -> Z.testbit (Observed snap) k = true)
  /\ 0 <= Observed snap < 2 ^ 32
  /\ 0 <= NotFullyParsed snap < 2 ^ 32.
Proof.
  intros Hacc. destruct (Decode_accepted _ _ _ Hacc) as (s0 & HO & HN & Hloop).
  assert (Hsub : forall k : Z,
             Z.testbit (NotFullyParsed snap) k = true ->
             Z.testbit (Observed snap) k = true).
  { apply (decodeAttributes_subset _ _ _ _ Hloop).
    intros k. rewrite HN, Z.bits_0. discriminate. }
  assert (Hset : forall k : Z,
             Z.testbit (Observed snap) k = true ->
             exists (i : nat) (rta : list byte),
               Attributes ar !! i = Some (Some rta)
               /\ 0 <= k < 32 /\ (Z.of_nat i - 1) mod 2 ^ 8 = k).
  { intros k Hk.
    apply (decodeAttributes_observed _ _ _ _ Hloop k) in Hk.
    rewrite HO, Z.bits_0 in Hk.
    destruct Hk as [Hf | (i & rta & Hi & Hb)]; [discriminate Hf |].
    apply bitOf_set_range in Hb. exists i, rta. split; [exact Hi |].
    now replace (0 + Z.of_nat i - 1) with (Z.of_nat i - 1) in Hb by lia. }
  assert (Hhigh : forall k : Z, 32 <= k -> Z.testbit (Observed snap) k = false).
  { intros k Hk. destruct (Z.testbit (Observed snap) k) eqn:Eb; [| reflexivity].
    destruct (Hset k Eb) as (_ & _ & _ & Hr & _). lia. }
  split; [| split; [exact Hsub | split]].
  - intros Hlen. split.
    + intros T HT.
      rewrite (decodeAttributes_observed _ _ _ _ Hloop (T - 1)), HO, Z.bits_0.
      split.
      * intros [Hf | (i & rta & Hi & Hb)]; [discriminate Hf |].
        assert (Hlt : (i < length (Attributes ar))%nat)
          by (apply lookup_lt_is_Some; eauto).
        unfold len in Hlen.
        apply bitOf_index in Hb; [| exact HT | lia]. subst i. eauto.
      * intros [raw Hraw]. right. exists (Z.to_nat T), raw. split; [exact Hraw |].
        assert (Hlt : (Z.to_nat T < length (Attributes ar))%nat)
          by (apply lookup_lt_is_Some; eauto).
        apply bitOf_index; [exact HT | unfold len in Hlen; lia | reflexivity].
    + intros k Hk. destruct (Hset k Hk) as (i & rta & Hi & Hr & Hm).
      assert (Hlt : (i < length (Attributes ar))%nat)
        by (apply lookup_lt_is_Some; eauto).
      unfold len in Hlen. change (2 ^ 8) with 256 in Hm.
      destruct (Nat.eq_dec i 0%nat) as [-> | Hnz].
      { change ((Z.of_nat 0 - 1) mod 256) with 255 in Hm. lia. }
      rewrite Z.mod_small in Hm by lia.
      exists (Z.of_nat i), rta. split; [lia |]. split; [lia |].
      now rewrite Nat2Z.id.
  - apply fits_uint32, Hhigh.
  - apply fits_uint32. intros k Hk.
    destruct (Z.testbit (NotFullyParsed snap) k) eqn:Eb; [| reflexivity].
    pose proof (Hsub k Eb) as Ho. rewrite (Hhigh k Hk) in Ho. discriminate Ho.
Qed.

Lemma decode_observed_bits_witness :
  exists snap : Snapshot,
    Decode (H := linux_amd64)
      (metadataRecord ([Some [x05]; Some [x07]; None; None; Some cubic]
                       ++ repeat None 28 ++ [Some [x01]]))
    = Returns (Metadata_ (metadataRecord []), Some snap, None)
    /\ ((forall T : Z, 1 <= T <= 32 ->
           (Z.testbit (Observed snap) (T - 1) = true
            <-> exists raw,
                  ([Some [x05]; Some [x07]; None; None; Some cubic]
                   ++ repeat None 28 ++ [Some [x01]]) !! Z.to_nat T = Some (Some raw)))
        /\ (forall k : Z,
              Z.testbit (Observed snap) k = true ->
              exists (T : Z) (raw : list byte),
                1 <= T <= 32 /\ k = T - 1
                /\ ([Some [x05]; Some [x07]; None; None; Some cubic]
                    ++ repeat None 28 ++ [Some [x01]]) !! Z.to_nat T = Some (Some raw)))
    /\ Observed snap = 9 /\ NotFullyParsed snap = 0.
Proof.
  eexists. split; [reflexivity |]. split; [| split; reflexivity].
  refine (proj1 (decode_observed_bits (H := linux_amd64)
                   (metadataRecord ([Some [x05]; Some [x07]; None; None; Some cubic]
                                    ++ repeat None 28 ++ [Some [x01]]))
                   _ _ eq_refl) _).
  vm_compute. discriminate.
Defined.

(** Their cases leave [ok] at its initial value, false. *)
Lemma undecoded_not_ok `{ABI} (wf : abi_wf H) (T : Z) (rta : list byte)
    (s0 : Snapshot) (r : Snapshot * bool) :
  In T undecoded ->
  decodeAttribute T rta s0 = Returns r -> snd r = false.
Proof.
  intros HT Hr. distinct_labels wf. unfold decodeAttribute in Hr.
  unfold undecoded in HT. simpl in HT.
  destruct HT as [<- | [<- | [<- | [<- | [<- | []]]]]];
    repeat match type of Hr with
           | context [if ?a =? ?b then _ else _] =>
               destruct (Z.eqb_spec a b);
               [ first [ congruence | cbn in Hr; inversion Hr; reflexivity ] | ]
           end;
    solve [ congruence | cbn in Hr; inversion Hr; reflexivity ].
Qed.

(** C3, as stated, fails: the padding attribute, which is recognised but
    not decoded, gets its [NotFullyParsed] bit set. *)
Lemma decode_undecoded_flagged_counterexample :
  exists md snap,
    Decode (H := linux_amd64) (metadataRecord (repeat None 14 ++ [Some [x00]]))
    = Returns (md, Some snap, None)
    /\ (metadataRecord (repeat None 14 ++ [Some [x00]])).(Attributes)
       !! Z.to_nat (INET_DIAG_PAD (ABI := linux_amd64)) = Some (Some [x00])
    /\ Z.testbit (Observed snap) (INET_DIAG_PAD (ABI := linux_amd64) - 1) = true
    /\ Z.testbit (NotFullyParsed snap) (INET_DIAG_PAD (ABI := linux_amd64) - 1) = true.
Proof. do 2 eexists. repeat split. Qed.

(** C3, amended.  For a record accepted by [Decode] whose table has a
    non-nil entry at a recognised-but-not-decoded type T (between 1 and 32,
    as all of them are), bit T-1 is set in [Observed] and is also set in
    [NotFullyParsed]. *)
Theorem decode_undecoded_types `{ABI} (wf : abi_wf H) (ar : ArchivalRecord)
    (md : option Metadata) (snap : Snapshot) (T : Z) (raw : list byte) :
  Decode ar = Returns (md, Some snap, None) ->
  In T undecoded ->
  1 <= T <= 32 ->
  Attributes ar !! Z.to_nat T = Some (Some raw) ->
  Z.testbit (Observed snap) (T - 1) = true
  /\ Z.testbit (NotFullyParsed snap) (T - 1) = true.
Proof.
  intros Hacc HT Hrange Hraw.
  destruct (Decode_accepted _ _ _ Hacc) as (s0 & HO & HN & Hloop).
  assert (Hbit : Z.testbit (bitOf (0 + Z.of_nat (Z.to_nat T))) (T - 1) = true).
  { rewrite bitOf_testbit by lia. change (2 ^ 8) with 256.
    rewrite Z.mod_small by lia.
    apply andb_true_iff. split; [apply Z.eqb_eq | apply Z.ltb_lt]; lia. }
  split.
  - apply (decodeAttributes_observed _ _ _ _ Hloop). right. eauto.
  - apply (decodeAttributes_not_parsed _ _ _ _ Hloop). right.
    exists (Z.to_nat T), raw. split; [exact Hraw |]. split; [| exact Hbit].
    intros s1 r Hr. apply (undecoded_not_ok wf T raw s1 r HT).
    now replace (0 + Z.of_nat (Z.to_nat T)) with T in Hr by lia.
Qed.

Lemma decode_undecoded_types_witness :
  exists snap : Snapshot,
    Decode (H := linux_amd64) (metadataRecord (repeat None 18 ++ [Some [x01; x02]]))
    = Returns (Metadata_ (metadataRecord []), Some snap, None)
    /\ Z.testbit (Observed snap) (18 - 1) = true
    /\ Z.testbit (NotFullyParsed snap) (18 - 1) = true.
Proof.
  eexists. split; [reflexivity |].
  refine (decode_undecoded_types (H := linux_amd64) linux_amd64_wf
            (metadataRecord (repeat None 18 ++ [Some [x01; x02]])) _ _ 18 [x01; x02]
            eq_refl _ _ eq_refl).
  - simpl. tauto.
  - lia.
Defined.

(* ------------------------------------------------------------------ *)
(** *** Snapshot assembler: accepted and rejected records              *)
(* ------------------------------------------------------------------ *)

Lemma runCodec_returns `{ABI} (wf : abi_wf H) (c : structCodec) (raw : list byte) :
  exists r, runCodec c raw = Returns r.
Proof.
  assert (Hgen : forall size, 0 < size ->
            exists r, (r ← maybeCopy raw size; mret (castStruct size r)) = Returns r).
  { intros size Hs. destruct (maybeCopy_returns raw size Hs) as [r ->].
    cbn. eauto. }
  pose proof (sizes_positive _ wf c) as Hpos.
  destruct c; apply Hgen; exact Hpos.
Qed.

(** The [switch] returns on every attribute except an empty congestion
    algorithm. *)
Lemma decodeAttribute_returns `{ABI} (wf : abi_wf H) (t : Z) (rta : list byte)
    (s : Snapshot) :
  (rta = [] -> t <> INET_DIAG_CONG) ->
  exists r, decodeAttribute t rta s = Returns r.
Proof.
  intros Hcong. unfold decodeAttribute.
  pose proof (runCodec_returns wf CMemInfo rta) as [[? ?] HM].
  pose proof (runCodec_returns wf CLinuxTCPInfo rta) as [[? ?] HT].
  pose proof (runCodec_returns wf CVegasInfo rta) as [[? ?] HV].
  pose proof (runCodec_returns wf CSockMemInfo rta) as [[? ?] HS].
  pose proof (runCodec_returns wf CDCTCPInfo rta) as [[? ?] HD].
  pose proof (runCodec_returns wf CBBRInfo rta) as [[? ?] HB].
  pose proof (toUint8_returns rta) as [[? ?] HU].
  pose proof (toMark_returns rta) as [[? ?] HK].
  cbn [runCodec] in *. unfold toTOS, toTCLASS, toClassID, toShutdown, toProtocol.
  repeat match goal with
         | |- context [if ?a =? ?b then _ else _] => destruct (Z.eqb_spec a b)
         end;
    rewrite ?HM, ?HT, ?HV, ?HS, ?HD, ?HB, ?HU, ?HK; cbn; eauto.
  rewrite CongestionAlgorithm_returns by (intros ->; now apply Hcong).
  cbn. eauto.
Qed.

Lemma decodeAttributes_returns `{ABI} (wf : abi_wf H) (attrs : list (option (list byte))) :
  forall (t : Z) (s : Snapshot),
    (forall i : nat, attrs !! i = Some (Some []) -> t + Z.of_nat i <> INET_DIAG_CONG) ->
    exists s', decodeAttributes t attrs s = Returns s'.
Proof.
  induction attrs as [| [rta |] rest IH]; intros t s Hcong.
  - cbn. eauto.
  - cbn [decodeAttributes].
    destruct (decodeAttribute_returns wf t rta s) as [[s1 ok] ->].
    { intros ->. specialize (Hcong 0%nat eq_refl). lia. }
    cbn. apply IH. intros i Hi. specialize (Hcong (S i) Hi). lia.
  - cbn [decodeAttributes]. apply IH.
    intros i Hi. specialize (Hcong (S i) Hi). lia.
Qed.




Example decode_cubic :
  exists snap,
    Decode (H := linux_amd64) (metadataRecord [None; None; None; None; Some cubic])
    = Returns (Metadata_ (metadataRecord []), Some snap, None)
    /\ CongestionAlgorithm snap = [x63; x75; x62; x69; x63]
    /\ Observed snap = 8 /\ NotFullyParsed snap = 0.
Proof. eexists. repeat split. Qed.

Example decode_header_only :
  exists snap,
    Decode (H := linux_amd64)
      {| Timestamp := 5; RawIDM := Some (repeat x00 72); Attributes := [];
         Metadata_ := None |}
    = Returns (None, Some snap, None)
    /\ InetDiagMsg snap = Some (repeat x00 72) /\ SnapTimestamp snap = 5.
Proof. eexists. repeat split. Qed.

Example decode_header_too_short :
  Decode (H := linux_amd64)
    {| Timestamp := 5; RawIDM := Some [x02; x01]; Attributes := [];
       Metadata_ := None |}
  = Returns (None, None, Some (Sentinel ErrParseFailed)).
Proof. reflexivity. Qed.

(* ------------------------------------------------------------------ *)
(** *** TLV splitter: termination and attribute types                  *)
(* ------------------------------------------------------------------ *)

Lemma le_uint_nonneg (bs : list byte) : 0 <= le_uint bs.
Proof.
  induction bs as [| b bs IH]; simpl; [lia |].
  apply Z.lor_nonneg. split.
  - unfold byteZ. apply N2Z.is_nonneg.
  - apply Z.shiftl_nonneg, IH.
Qed.

Lemma uint_of_nonneg (o : ByteOrder) (bs : list byte) : 0 <= uint_of o bs.
Proof. destruct o; apply le_uint_nonneg. Qed.

Lemma rtaAlignOf_ge (n : Z) : n <= rtaAlignOf n.
Proof.
  unfold rtaAlignOf.
  pose proof (Z.div_mod (n + 3) 4 ltac:(lia)) as Hd.
  pose proof (Z.mod_pos_bound (n + 3) 4 ltac:(lia)) as Hm. lia.
Qed.

(** What the helper guarantees when it succeeds. *)
Lemma netlinkRouteAttrAndValue_ok (o : ByteOrder) (b : list byte) (a : RtAttr)
    (vbuf : list byte) (alen : Z) :
  netlinkRouteAttrAndValue o b = inr (a, vbuf, alen) ->
  0 <= RtaType a /\ SizeofRtAttr <= RtaLen a <= len b /\ RtaLen a <= alen.
Proof.
  unfold netlinkRouteAttrAndValue. cbn [RtaLen RtaType].
  destruct (Z.ltb_spec (uint_of o (firstn 2 b)) SizeofRtAttr) as [| Hlo];
    [discriminate |].
  destruct (Z.ltb_spec (len b) (uint_of o (firstn 2 b))) as [| Hhi];
    [discriminate |].
  cbn. intros Heq. inversion Heq; subst. cbn.
  split; [apply uint_of_nonneg |]. split; [lia | apply rtaAlignOf_ge].
Qed.

(** The loop never runs out of the fuel [ParseRouteAttr] gives it: every
    iteration consumes at least one header of bytes. *)
Lemma parseRouteAttrLoop_fuel (o : ByteOrder) (fuel : nat) :
  forall (b : list byte) (attrs : list NetlinkRouteAttr),
    (length b <= fuel)%nat ->
    parseRouteAttrLoop o fuel b attrs <> OutOfFuel.
Proof.
  induction fuel as [| fuel IH]; intros b attrs Hlen.
  - cbn. destruct (Z.leb_spec SizeofRtAttr (len b)) as [Hge | _]; [| discriminate].
    unfold len, SizeofRtAttr in Hge. lia.
  - cbn [parseRouteAttrLoop].
    destruct (negb (SizeofRtAttr <=? len b)); [discriminate |].
    destruct (netlinkRouteAttrAndValue o b) as [e | [[a vbuf] alen]] eqn:E;
      [discriminate |].
    destruct (netlinkRouteAttrAndValue_ok _ _ _ _ _ E) as (_ & Hl & Ha).
    unfold sliceTo.
    destruct ((RtaLen a - SizeofRtAttr <? 0) || (len vbuf <? RtaLen a - SizeofRtAttr));
      cbn; [discriminate |].
    unfold sliceFrom.
    destruct ((alen <? 0) || (len b <? alen)) eqn:Eb; cbn; [discriminate |].
    apply IH. rewrite length_skipn. unfold len, SizeofRtAttr in *. lia.
Qed.

Lemma ParseRouteAttr_terminates (o : ByteOrder) (b : list byte) :
  ParseRouteAttr o b <> OutOfFuel.
Proof. apply parseRouteAttrLoop_fuel. lia. Qed.

Lemma parseRouteAttrLoop_types (o : ByteOrder) (fuel : nat) :
  forall (b : list byte) (acc attrs : list NetlinkRouteAttr),
    parseRouteAttrLoop o fuel b acc = Returns (attrs, None) ->
    Forall (fun a => 0 <= RtaType (Attr a)) acc ->
    Forall (fun a => 0 <= RtaType (Attr a)) attrs.
Proof.
  induction fuel as [| fuel IH]; intros b acc attrs Hr Hacc.
  - cbn in Hr. destruct (negb (SizeofRtAttr <=? len b)); [| discriminate Hr].
    inversion Hr; subst. exact Hacc.
  - cbn [parseRouteAttrLoop] in Hr.
    destruct (negb (SizeofRtAttr <=? len b)).
    { inversion Hr; subst. exact Hacc. }
    destruct (netlinkRouteAttrAndValue o b) as [e | [[a vbuf] alen]] eqn:E;
      [discriminate Hr |].
    destruct (netlinkRouteAttrAndValue_ok _ _ _ _ _ E) as (Ht & _ & _).
    destruct (sliceTo vbuf (RtaLen a - SizeofRtAttr)) as [value | |]; cbn in Hr;
      try discriminate Hr.
    destruct (sliceFrom b alen) as [b' | |]; cbn in Hr; try discriminate Hr.
    apply (IH _ _ _ Hr). apply Forall_app. split; [exact Hacc |].
    constructor; [exact Ht | constructor].
Qed.

Lemma ParseRouteAttr_types (o : ByteOrder) (b : list byte)
    (attrs : list NetlinkRouteAttr) :
  ParseRouteAttr o b = Returns (attrs, None) ->
  Forall (fun a => 0 <= RtaType (Attr a)) attrs.
Proof. intros Hr. apply (parseRouteAttrLoop_types _ _ _ _ _ Hr). constructor. Qed.

Example split_sample :
  ParseRouteAttr LittleEndian (skipn 72 (Data sampleMessage))
  = Returns ([ {| Attr := {| RtaLen := 10; RtaType := 4 |};
                  Value := [x63; x75; x62; x69; x63; x00] |};
               {| Attr := {| RtaLen := 5; RtaType := 100 |}; Value := [x01] |};
               {| Attr := {| RtaLen := 5; RtaType := 4 |}; Value := [x07] |} ],
             None).
Proof. reflexivity. Qed.

Example split_truncated :
  ParseRouteAttr LittleEndian [x09; x00; x04; x00; x63; x75; x62; x69]
  = Returns ([], Some (Sentinel ErrTruncatedAttribute)).
Proof. reflexivity. Qed.

(** An attribute whose declared length is not a multiple of the alignment
    and whose padding is missing makes the slice expression [b[alen:]]
    panic. *)
Example split_unpadded_tail_panics :
  ParseRouteAttr LittleEndian [x05; x00; x04; x00; x63] = Panics.
Proof. reflexivity. Qed.

(* ------------------------------------------------------------------ *)
(** *** Record extractor: the attribute table                          *)
(* ------------------------------------------------------------------ *)

Lemma maxObserved_cons (a : NetlinkRouteAttr) (rest : list NetlinkRouteAttr) :
  maxObserved (a :: rest) = Z.max (RtaType (Attr a)) (maxObserved rest).
Proof. reflexivity. Qed.

Lemma maxAttrTypeOf_fold (attrs : list NetlinkRouteAttr) :
  forall m : Z,
    0 <= m ->
    fold_left (fun m a => if RtaType (Attr a) >? m then RtaType (Attr a) else m) attrs m
    = Z.max m (maxObserved attrs).
Proof.
  induction attrs as [| a rest IH]; intros m Hm.
  - cbn. lia.
  - cbn [fold_left]. rewrite maxObserved_cons.
    destruct (Z.gtb_spec (RtaType (Attr a)) m); rewrite IH; lia.
Qed.

Lemma maxObserved_nonneg (attrs : list NetlinkRouteAttr) : 0 <= maxObserved attrs.
Proof.
  induction attrs as [| a rest IH]; [cbn; lia |].
  rewrite maxObserved_cons. lia.
Qed.

(** The first loop computes the maximum observed type. *)
Lemma maxAttrTypeOf_spec (attrs : list NetlinkRouteAttr) :
  maxAttrTypeOf attrs = maxObserved attrs.
Proof.
  unfold maxAttrTypeOf. rewrite maxAttrTypeOf_fold by lia.
  pose proof (maxObserved_nonneg attrs). lia.
Qed.

Lemma clampType_spec `{ABI} (m : Z) : clampType m = Z.min m (2 * INET_DIAG_MAX).
Proof. unfold clampType. destruct (Z.gtb_spec m (2 * INET_DIAG_MAX)); lia. Qed.

(** The second loop never indexes out of range, keeps the length of the
    table, and leaves in every slot the last value of that type. *)
Lemma fillAttributes_spec (m : Z) (attrs : list NetlinkRouteAttr) :
  forall table : list (option (list byte)),
    len table = m + 1 ->
    Forall (fun a => 0 <= RtaType (Attr a)) attrs ->
    exists table',
      fillAttributes m attrs table = Returns table'
      /\ length table' = length table
      /\ forall t : Z, 0 <= t <= m ->
           table' !! Z.to_nat t
           = match lastValue t attrs with
             | Some v => Some (Some v)
             | None => table !! Z.to_nat t
             end.
Proof.
  induction attrs as [| a rest IH]; intros table Hlen Hty.
  - exists table. cbn. auto.
  - apply Forall_cons in Hty as [Ha Hrest]. cbn [fillAttributes lastValue].
    destruct (Z.gtb_spec (RtaType (Attr a)) m) as [Hgt | Hle].
    + destruct (IH table Hlen Hrest) as (table' & Hr & Hl & Hlook).
      exists table'. split; [exact Hr |]. split; [exact Hl |].
      intros t Ht. rewrite (Hlook t Ht).
      destruct (lastValue t rest); [reflexivity |].
      destruct (Z.eqb_spec (RtaType (Attr a)) t); [lia | reflexivity].
    + unfold store.
      destruct (Z.ltb_spec (RtaType (Attr a)) 0) as [| _]; [lia |].
      destruct (Z.leb_spec (len table) (RtaType (Attr a))) as [| Hin]; [lia |].
      cbn.
      destruct (IH (<[Z.to_nat (RtaType (Attr a)) := Some (Value a)]> table))
        as (table' & Hr & Hl & Hlook).
      { unfold len in *. rewrite length_insert. exact Hlen. }
      { exact Hrest. }
      exists table'. split; [exact Hr |].
      split; [now rewrite Hl, length_insert |].
      intros t Ht. rewrite (Hlook t Ht).
      destruct (lastValue t rest); [reflexivity |].
      destruct (Z.eqb_spec (RtaType (Attr a)) t) as [Heq | Hne].
      * rewrite <- Heq. apply list_lookup_insert_eq. unfold len in Hin. lia.
      * apply list_lookup_insert_ne. lia.
Qed.

Lemma lookup_repeat {A : Type} (x : A) (n i : nat) :
  (i < n)%nat -> repeat x n !! i = Some x.
Proof.
  revert i. induction n as [| n IH]; intros i Hi; [lia |].
  destruct i as [| i]; [reflexivity |]. cbn. apply IH. lia.
Qed.

(** Lines 81-103 as a whole. *)
Lemma buildAttributes_spec `{ABI} (wf : abi_wf H) (attrs : list NetlinkRouteAttr) :
  Forall (fun a => 0 <= RtaType (Attr a)) attrs ->
  exists table,
    buildAttributes attrs = Returns table
    /\ len table = Z.min (maxObserved attrs) (2 * INET_DIAG_MAX) + 1
    /\ forall t : Z, 0 <= t <= Z.min (maxObserved attrs) (2 * INET_DIAG_MAX) ->
         table !! Z.to_nat t = Some (lastValue t attrs).
Proof.
  intros Hty. unfold buildAttributes.
  rewrite maxAttrTypeOf_spec, clampType_spec.
  set (bound := Z.min (maxObserved attrs) (2 * INET_DIAG_MAX)).
  pose proof (maxObserved_nonneg attrs) as Hm.
  pose proof (max_fits_uint16 _ wf) as Hmax.
  assert (Hb : 0 <= bound <= 65534) by (unfold bound; lia).
  rewrite (Z.mod_small (bound + 1)) by lia.
  destruct (fillAttributes_spec bound attrs (repeat None (Z.to_nat (bound + 1))))
    as (table & Hr & Hl & Hlook).
  { unfold len. rewrite repeat_length. lia. }
  { exact Hty. }
  exists table. split; [exact Hr |]. split.
  - unfold len. rewrite Hl, repeat_length. lia.
  - intros t Ht. rewrite (Hlook t Ht).
    destruct (lastValue t attrs); [reflexivity |].
    apply lookup_repeat. lia.
Qed.

(** C9.  Whenever a message passes the checks that precede the table
    (type 20, a header that splits off, not filtered out as local, an
    attribute list that splits), [MakeArchivalRecord] returns a record whose
    table has length min(maximum observed type, 2*INET_DIAG_MAX)+1; each
    slot up to that bound holds the value of the last attribute of its type
    (nil when there is none); types above the bound have no slot, and their
    attributes do not make the record fail. *)
Theorem make_record_attribute_table `{ABI} (wf : abi_wf H) (msg : NetlinkMessage)
    (skipLocal : bool) (rawIDM attrBytes : list byte) (attrs : list NetlinkRouteAttr) :
  Type_ (Header msg) = 20 ->
  SplitInetDiagMsg (Data msg) = (Some rawIDM, attrBytes) ->
  (skipLocal = true ->
   exists idm, RawParse rawIDM = inr idm
               /\ isLocal (SrcIP idm) || isLocal (DstIP idm) = false) ->
  ParseRouteAttr native attrBytes = Returns (attrs, None) ->
  exists rec : ArchivalRecord,
    MakeArchivalRecord msg skipLocal = Returns (Some rec, None)
    /\ len (Attributes rec) = Z.min (maxObserved attrs) (2 * INET_DIAG_MAX) + 1
    /\ (forall t : Z, 0 <= t <= Z.min (maxObserved attrs) (2 * INET_DIAG_MAX) ->
          Attributes rec !! Z.to_nat t = Some (lastValue t attrs))
    /\ (forall t : Z, Z.min (maxObserved attrs) (2 * INET_DIAG_MAX) < t ->
          Attributes rec !! Z.to_nat t = None).
Proof.
  intros Hty Hsplit Hlocal Hparse.
  destruct (buildAttributes_spec wf attrs (ParseRouteAttr_types _ _ _ Hparse))
    as (table & Hb & Hl & Hlook).
  exists {| Timestamp := 0; RawIDM := Some rawIDM; Attributes := table;
            Metadata_ := None |}.
  split; [| split; [exact Hl | split; [exact Hlook |]]].
  - unfold MakeArchivalRecord. rewrite Hty, Hsplit. cbn [negb Z.eqb Pos.eqb].
    assert (Hfilter :
              (if skipLocal
               then match RawParse rawIDM with
                    | inl e => Some (None, Some (Sentinel e))
                    | inr idm =>
                        if isLocal (SrcIP idm) || isLocal (DstIP idm)
                        then Some (@None ArchivalRecord, @None error) else None
                    end
               else None) = None).
    { destruct skipLocal; [| reflexivity].
      destruct (Hlocal eq_refl) as (idm & -> & ->). reflexivity. }
    rewrite Hfilter, Hparse. cbn. rewrite Hb. reflexivity.
  - intros t Ht. cbn. apply lookup_ge_None. unfold len in Hl. lia.
Qed.

Lemma make_record_attribute_table_witness :
  exists rec : ArchivalRecord,
    MakeArchivalRecord (H := linux_amd64) sampleMessage true = Returns (Some rec, None)
    /\ len (Attributes rec) = 39
    /\ (forall t : Z, 0 <= t <= 38 ->
          Attributes rec !! Z.to_nat t
          = Some (lastValue t
                    [ {| Attr := {| RtaLen := 10; RtaType := 4 |}; Value := cubic |};
                      {| Attr := {| RtaLen := 5; RtaType := 100 |}; Value := [x01] |};
                      {| Attr := {| RtaLen := 5; RtaType := 4 |}; Value := [x07] |} ]))
    /\ (forall t : Z, 38 < t -> Attributes rec !! Z.to_nat t = None).
Proof.
  refine (make_record_attribute_table (H := linux_amd64) linux_amd64_wf
            sampleMessage true (repeat x01 72) (skipn 72 (Data sampleMessage))
            _ eq_refl eq_refl _ eq_refl).
  intros _. exists (repeat x01 72). split; reflexivity.
Defined.

Example make_record_sample :
  MakeArchivalRecord (H := linux_amd64) sampleMessage false
  = Returns (Some {| Timestamp := 0; RawIDM := Some (repeat x01 72);
                     Attributes := repeat None 4 ++ [Some [x07]] ++ repeat None 34;
                     Metadata_ := None |}, None).
Proof. reflexivity. Qed.

(* ================================================================== *)
(** ** Further properties of the code                                  *)
(* ================================================================== *)

(* ------------------------------------------------------------------ *)
(** *** Message classifier: when it fails, when it accepts             *)
(* ------------------------------------------------------------------ *)

(** X1.  The classifier fails in exactly three situations, each with its
    own error: a sequence number other than the expected one
    ([ErrBadSequence]); the expected sequence number with another process
    id ([ErrBadPid]); an NLMSG_ERROR message that passes both checks and
    carries fewer than 4 payload bytes ([ErrBadMsgData]).  In every other
    situation the error is nil. *)
Theorem classify_error_iff (native : ByteOrder) (m : NetlinkMessage) (seq pid : Z) :
  (failure (processSingleMessage native m seq pid) = Some (Sentinel ErrBadSequence)
   <-> Seq (Header m) <> seq)
  /\ (failure (processSingleMessage native m seq pid) = Some (Sentinel ErrBadPid)
      <-> Seq (Header m) = seq /\ Pid (Header m) <> pid)
  /\ (failure (processSingleMessage native m seq pid) = Some (Sentinel ErrBadMsgData)
      <-> Seq (Header m) = seq /\ Pid (Header m) = pid
          /\ Type_ (Header m) = NLMSG_ERROR /\ len (Data m) < 4)
  /\ (failure (processSingleMessage native m seq pid) = None
      <-> Seq (Header m) = seq /\ Pid (Header m) = pid
          /\ (Type_ (Header m) = NLMSG_ERROR -> 4 <= len (Data m))).
Proof.
  unfold failure, processSingleMessage.
  destruct (Z.eqb_spec (Seq (Header m)) seq) as [Hs | Hs]; cbn [negb];
    [| classify_finish].
  destruct (Z.eqb_spec (Pid (Header m)) pid) as [Hp | Hp]; cbn [negb];
    [| classify_finish].
  destruct (Z.eqb_spec (Type_ (Header m)) NLMSG_DONE) as [Hd | Hd];
    [unfold NLMSG_DONE, NLMSG_ERROR in *; classify_finish |].
  destruct (Z.eqb_spec (Type_ (Header m)) NLMSG_ERROR) as [He | He].
  - destruct (Z.ltb_spec (len (Data m)) 4) as [Hl | Hl]; [classify_finish |].
    destruct (int32 (uint_of native (firstn 4 (Data m))) =? 0);
      [| destruct (Z.land (Flags (Header m)) NLM_F_MULTI =? 0)]; classify_finish.
  - destruct (Z.land (Flags (Header m)) NLM_F_MULTI =? 0); classify_finish.
Qed.

(** X2.  The message handed back is nil or the input message itself.  It
    is the input message exactly when both checks pass, the type is not
    NLMSG_DONE, and, for an NLMSG_ERROR message, the payload has 4 bytes or
    more and a non-zero error code.  More messages are expected exactly
    when the message is handed back and has the multi-part flag. *)
Theorem classify_accept_iff (native : ByteOrder) (m : NetlinkMessage) (seq pid : Z) :
  (accepted (processSingleMessage native m seq pid) = None
   \/ accepted (processSingleMessage native m seq pid) = Some m)
  /\ (accepted (processSingleMessage native m seq pid) = Some m
      <-> Seq (Header m) = seq /\ Pid (Header m) = pid
          /\ Type_ (Header m) <> NLMSG_DONE
          /\ (Type_ (Header m) = NLMSG_ERROR ->
              4 <= len (Data m) /\ errorCode native m <> 0))
  /\ (continues (processSingleMessage native m seq pid) = true
      <-> accepted (processSingleMessage native m seq pid) = Some m
          /\ Z.land (Flags (Header m)) NLM_F_MULTI <> 0).
Proof.
  unfold accepted, continues, errorCode, processSingleMessage.
  destruct (Z.eqb_spec (Seq (Header m)) seq) as [Hs | Hs]; cbn [negb];
    [| classify_finish].
  destruct (Z.eqb_spec (Pid (Header m)) pid) as [Hp | Hp]; cbn [negb];
    [| classify_finish].
  destruct (Z.eqb_spec (Type_ (Header m)) NLMSG_DONE) as [Hd | Hd];
    [classify_finish |].
  destruct (Z.eqb_spec (Type_ (Header m)) NLMSG_ERROR) as [He | He].
  - destruct (Z.ltb_spec (len (Data m)) 4) as [Hl | Hl]; [classify_finish |].
    destruct (Z.eqb_spec (int32 (uint_of native (firstn 4 (Data m)))) 0) as [Hz | Hz];
      [classify_finish |].
    destruct (Z.eqb_spec (Z.land (Flags (Header m)) NLM_F_MULTI) 0) as [Hf | Hf];
      classify_finish.
  - destruct (Z.eqb_spec (Z.land (Flags (Header m)) NLM_F_MULTI) 0) as [Hf | Hf];
      classify_finish.
Qed.

(* ------------------------------------------------------------------ *)
(** *** Native-endian integers                                         *)
(* ------------------------------------------------------------------ *)

Lemma byteZ_range (b : byte) : 0 <= byteZ b < 256.
Proof.
  unfold byteZ. pose proof (Byte.to_N_bounded b) as Hb. lia.
Qed.

(** A byte or-ed below a shifted value is added to it. *)
Lemma lor_shiftl_byte (a x : Z) :
  0 <= a < 256 -> 0 <= x -> Z.lor a (Z.shiftl x 8) = a + 256 * x.
Proof.
  intros Ha Hx.
  assert (Hland : Z.land a (Z.shiftl x 8) = 0).
  { apply Z.bits_inj'. intros k Hk. rewrite Z.land_spec, Z.bits_0.
    destruct (Z.ltb_spec k 8) as [Hlt | Hge].
    - rewrite (Z.shiftl_spec_low x 8 k Hlt). apply andb_false_r.
    - destruct (Z.eq_dec a 0) as [-> | Hnz]; [now rewrite Z.bits_0 |].
      rewrite (Z.bits_above_log2 a k); [reflexivity | lia |].
      apply Z.log2_lt_pow2; [lia |].
      apply Z.lt_le_trans with (2 ^ 8); [change (2 ^ 8) with 256; lia |].
      apply Z.pow_le_mono_r; lia. }
  rewrite <- Z.lxor_lor by exact Hland.
  rewrite <- Z.add_nocarry_lxor by exact Hland.
  rewrite Z.shiftl_mul_pow2 by lia. change (2 ^ 8) with 256. lia.
Qed.

Lemma le_uint_cons (b : byte) (bs : list byte) :
  le_uint (b :: bs) = byteZ b + 256 * le_uint bs.
Proof.
  cbn [le_uint]. apply lor_shiftl_byte; [apply byteZ_range | apply le_uint_nonneg].
Qed.

Lemma le_uint_bound (bs : list byte) : 0 <= le_uint bs < 2 ^ (8 * len bs).
Proof.
  induction bs as [| b bs IH].
  - unfold len. simpl. lia.
  - rewrite le_uint_cons. pose proof (byteZ_range b) as Hb.
    unfold len in *. cbn [length]. rewrite Nat2Z.inj_succ.
    replace (8 * Z.succ (Z.of_nat (length bs))) with (8 + 8 * Z.of_nat (length bs)) by lia.
    rewrite Z.pow_add_r by lia. change (2 ^ 8) with 256. lia.
Qed.

Lemma uint_of_bound (o : ByteOrder) (bs : list byte) :
  0 <= uint_of o bs < 2 ^ (8 * len bs).
Proof.
  destruct o; cbn [uint_of]; [apply le_uint_bound |].
  replace (len bs) with (len (rev bs)) by (unfold len; now rewrite length_rev).
  apply le_uint_bound.
Qed.

Lemma le_uint_zero (bs : list byte) :
  le_uint bs = 0 <-> Forall (fun b => byteZ b = 0) bs.
Proof.
  induction bs as [| b bs IH].
  - cbn. split; [constructor | reflexivity].
  - rewrite le_uint_cons, Forall_cons, <- IH.
    pose proof (byteZ_range b). pose proof (le_uint_nonneg bs). lia.
Qed.

(** In either byte order, the integer is 0 exactly when every byte is. *)
Lemma uint_of_zero (o : ByteOrder) (bs : list byte) :
  uint_of o bs = 0 <-> Forall (fun b => byteZ b = 0) bs.
Proof.
  destruct o; cbn [uint_of]; rewrite le_uint_zero; [reflexivity |].
  split; intros Hall.
  - rewrite <- (rev_involutive bs). now apply List.Forall_rev.
  - now apply List.Forall_rev.
Qed.

Lemma int32_zero (x : Z) : 0 <= x < 2 ^ 32 -> (int32 x = 0 <-> x = 0).
Proof.
  intros Hx. unfold int32. rewrite Z.mod_small by exact Hx.
  destruct (Z.ltb_spec x (2 ^ 31)); lia.
Qed.

Lemma errorCode_zero (o : ByteOrder) (m : NetlinkMessage) :
  4 <= len (Data m) ->
  (errorCode o m = 0 <-> Forall (fun b => byteZ b = 0) (firstn 4 (Data m))).
Proof.
  intros Hlen. unfold errorCode. rewrite <- (uint_of_zero o).
  apply int32_zero.
  pose proof (uint_of_bound o (firstn 4 (Data m))) as Hb.
  replace (8 * len (firstn 4 (Data m))) with 32 in Hb; [exact Hb |].
  unfold len in *. rewrite length_take. lia.
Qed.

(** X3.  What the classifier returns does not depend on the byte order of
    the machine: an error code is zero in one byte order exactly when it is
    zero in the other (all four bytes are zero), and nothing else in the
    classification reads multi-byte data.  Only the number printed for a
    non-zero code differs. *)
Theorem classify_byte_order_independent (m : NetlinkMessage) (seq pid : Z) :
  fst (processSingleMessage LittleEndian m seq pid)
  = fst (processSingleMessage BigEndian m seq pid).
Proof.
  unfold processSingleMessage.
  destruct (negb (Seq (Header m) =? seq)); [reflexivity |].
  destruct (negb (Pid (Header m) =? pid)); [reflexivity |].
  destruct (Type_ (Header m) =? NLMSG_DONE); [reflexivity |].
  destruct (Type_ (Header m) =? NLMSG_ERROR).
  2: { destruct (Z.land (Flags (Header m)) NLM_F_MULTI =? 0); reflexivity. }
  destruct (Z.ltb_spec (len (Data m)) 4) as [Hl | Hl]; [reflexivity |].
  pose proof (errorCode_zero LittleEndian m Hl) as HL.
  pose proof (errorCode_zero BigEndian m Hl) as HB.
  unfold errorCode in HL, HB.
  destruct (Z.eqb_spec (int32 (uint_of LittleEndian (firstn 4 (Data m)))) 0) as [E1 | E1];
    destruct (Z.eqb_spec (int32 (uint_of BigEndian (firstn 4 (Data m)))) 0) as [E2 | E2];
    try reflexivity.
  - exfalso. apply E2, HB, HL, E1.
  - exfalso. apply E1, HL, HB, E2.
  - destruct (Z.land (Flags (Header m)) NLM_F_MULTI =? 0); reflexivity.
Qed.

(* ------------------------------------------------------------------ *)
(** *** Attribute codecs on inputs of any length                       *)
(* ------------------------------------------------------------------ *)

Lemma firstn_repeat_le {A : Type} (x : A) (n m : nat) :
  (n <= m)%nat -> firstn n (repeat x m) = repeat x n.
Proof.
  revert m. induction n as [| n IH]; intros m Hle; [reflexivity |].
  destruct m as [| m]; [lia |]. cbn. f_equal. apply IH. lia.
Qed.

(** The input cut or zero-padded to [size] bytes. *)
Lemma fit_short (raw : list byte) (size : nat) :
  (length raw <= size)%nat ->
  firstn size (raw ++ repeat x00 size) = raw ++ repeat x00 (size - length raw).
Proof.
  intros Hle. rewrite firstn_app, firstn_all2 by exact Hle.
  now rewrite firstn_repeat_le by lia.
Qed.

Lemma fit_long (raw : list byte) (size : nat) :
  (size <= length raw)%nat ->
  firstn size (raw ++ repeat x00 size) = firstn size raw.
Proof.
  intros Hle. rewrite firstn_app.
  replace (size - length raw)%nat with 0%nat by lia. cbn. apply app_nil_r.
Qed.

Lemma maybeCopy_cast (raw : list byte) (size : Z) :
  0 < size ->
  (r ← maybeCopy raw size; mret (castStruct size r))
  = Returns (Some (firstn (Z.to_nat size) (raw ++ repeat x00 (Z.to_nat size))),
             len raw <=? size).
Proof.
  intros Hpos. unfold maybeCopy, len.
  destruct (Z.ltb_spec (Z.of_nat (length raw)) size) as [Hlt | Hge].
  - cbn. unfold castStruct. cbn [fst snd].
    rewrite fit_short by lia.
    rewrite (firstn_all2 (raw ++ _)) by (rewrite length_app, repeat_length; lia).
    destruct (Z.leb_spec (Z.of_nat (length raw)) size); [reflexivity | lia].
  - destruct raw as [| b raw']; [cbn in Hge; lia |].
    cbn [mbind outcome_bind mret outcome_ret]. unfold castStruct. cbn [fst snd].
    rewrite fit_long by lia. do 2 f_equal.
    destruct (Z.eqb_spec (Z.of_nat (length (b :: raw'))) size);
      destruct (Z.leb_spec (Z.of_nat (length (b :: raw'))) size); lia || reflexivity.
Qed.

Lemma runCodec_value `{ABI} (c : structCodec) (raw : list byte) :
  0 < structSize c ->
  runCodec c raw
  = Returns (Some (firstn (Z.to_nat (structSize c))
                     (raw ++ repeat x00 (Z.to_nat (structSize c)))),
             len raw <=? structSize c).
Proof. intros Hpos. destruct c; apply maybeCopy_cast, Hpos. Qed.

(** X4.  Each struct codec returns on every input, whatever its length, a
    non-nil value of exactly the struct size: the input cut to that size
    or followed by zero bytes up to it.  The flag is true exactly when the
    input is not longer than the struct. *)
Theorem struct_codec_any_length `{ABI} (c : structCodec) (raw : list byte) :
  0 < structSize c ->
  exists v : list byte,
    runCodec c raw = Returns (Some v, len raw <=? structSize c)
    /\ len v = structSize c
    /\ v = firstn (Z.to_nat (structSize c)) (raw ++ repeat x00 (Z.to_nat (structSize c))).
Proof.
  intros Hpos. eexists. split; [apply runCodec_value, Hpos |]. split; [| reflexivity].
  unfold len. rewrite length_take, length_app, repeat_length. lia.
Qed.

Lemma struct_codec_any_length_witness :
  exists v : list byte,
    runCodec (H := linux_amd64) CVegasInfo (repeat x07 20)
    = Returns (Some v, len (repeat x07 20) <=? structSize (H := linux_amd64) CVegasInfo)
    /\ len v = structSize (H := linux_amd64) CVegasInfo
    /\ v = firstn (Z.to_nat (structSize (H := linux_amd64) CVegasInfo))
             (repeat x07 20
              ++ repeat x00 (Z.to_nat (structSize (H := linux_amd64) CVegasInfo))).
Proof.
  apply (struct_codec_any_length (H := linux_amd64) CVegasInfo (repeat x07 20)).
  reflexivity.
Defined.

Example vegas_oversized :
  runCodec (H := linux_amd64) CVegasInfo (repeat x07 20)
  = Returns (Some (repeat x07 16), false).
Proof. reflexivity. Qed.

(** X5.  [toMark] succeeds exactly on 4-byte inputs, and then yields the
    32-bit integer those bytes spell in the machine's byte order; on any
    other length it yields 0 with the flag false. *)
Theorem toMark_value `{ABI} (raw : list byte) :
  (forall b0 b1 b2 b3 : byte,
     raw = [b0; b1; b2; b3] ->
     toMark raw
     = Returns (match native with
                | LittleEndian =>
                    byteZ b0 + 2 ^ 8 * byteZ b1 + 2 ^ 16 * byteZ b2 + 2 ^ 24 * byteZ b3
                | BigEndian =>
                    byteZ b3 + 2 ^ 8 * byteZ b2 + 2 ^ 16 * byteZ b1 + 2 ^ 24 * byteZ b0
                end, true))
  /\ (exists v ok, toMark raw = Returns (v, ok)
                   /\ 0 <= v < 2 ^ 32
                   /\ (ok = true <-> len raw = 4)
                   /\ (ok = false -> v = 0)).
Proof.
  split.
  - intros b0 b1 b2 b3 ->. unfold toMark. cbn [len length negb Z.eqb Z.of_nat].
    change (negb (Z.of_nat 4 =? 4)) with false. cbv iota.
    destruct native; cbn [uint_of rev app]; rewrite !le_uint_cons; cbn [le_uint];
      do 2 f_equal; lia.
  - unfold toMark. destruct (Z.eqb_spec (len raw) 4) as [H4 | H4]; cbn [negb].
    + eexists _, true. split; [reflexivity |].
      pose proof (uint_of_bound native raw) as Hb. rewrite H4 in Hb.
      split; [exact Hb |]. split; [tauto | discriminate].
    + exists 0, false. split; [reflexivity |]. split; [lia |].
      split; [split; [discriminate | contradiction] | reflexivity].
Qed.

(* ------------------------------------------------------------------ *)
(** *** Snapshot assembler: what each entry contributes                *)
(* ------------------------------------------------------------------ *)

Lemma decodeAttributes_some `{ABI} (t : Z) (rta : list byte)
    (rest : list (option (list byte))) (s : Snapshot) :
  decodeAttributes t (Some rta :: rest) s
  = ('(s1, ok) ← decodeAttribute t rta s;
     decodeAttributes (t + 1) rest (markAttribute t ok s1)).
Proof. reflexivity. Qed.

(** What the loop leaves in a component [p] of the snapshot that only the
    iteration of index [L] can change: its value after that iteration when
    the entry at [L] is non-nil, and its initial value otherwise. *)
Lemma decodeAttributes_at `{ABI} {A : Type} (p : Snapshot -> A) (L hi : Z)
    (frame : forall t rta s s1 ok,
        t <> L -> 0 <= t < hi ->
        decodeAttribute t rta s = Returns (s1, ok) ->
        p (markAttribute t ok s1) = p s)
    (attrs : list (option (list byte))) :
  forall (t : Z) (s s' : Snapshot),
    0 <= t -> t + len attrs <= hi ->
    decodeAttributes t attrs s = Returns s' ->
    match (if t <=? L then attrs !! Z.to_nat (L - t) else None) with
    | Some (Some rta) =>
        exists s0 s1 ok,
          decodeAttribute L rta s0 = Returns (s1, ok)
          /\ p s0 = p s /\ p s' = p (markAttribute L ok s1)
    | _ => p s' = p s
    end.
Proof.
  induction attrs as [| e rest IH]; intros t s s' Ht Hhi Hr.
  - cbn in Hr. inversion Hr; subst. destruct (t <=? L); reflexivity.
  - assert (Hlen : len (e :: rest) = 1 + len rest) by (unfold len; cbn [length]; lia).
    pose proof (len_rest := Nat2Z.is_nonneg (length rest)). fold (len rest) in len_rest.
    assert (Hshift : forall s3,
               decodeAttributes (t + 1) rest s3 = Returns s' ->
               t <> L ->
               match (if t <=? L then (e :: rest) !! Z.to_nat (L - t) else None) with
               | Some (Some rta) =>
                   exists s0 s1 ok,
                     decodeAttribute L rta s0 = Returns (s1, ok)
                     /\ p s0 = p s3 /\ p s' = p (markAttribute L ok s1)
               | _ => p s' = p s3
               end).
    { intros s3 Hrest Hne.
      specialize (IH (t + 1) s3 s' ltac:(lia) ltac:(lia) Hrest).
      destruct (Z.leb_spec t L) as [Hle | Hgt].
      - destruct (Z.leb_spec (t + 1) L) as [_ | Hc]; [| lia].
        replace (Z.to_nat (L - t)) with (S (Z.to_nat (L - (t + 1)))) by lia.
        exact IH.
      - destruct (Z.leb_spec (t + 1) L) as [Hc | _]; [lia |]. exact IH. }
    destruct e as [rta |].
    + rewrite decodeAttributes_some in Hr.
      destruct (decodeAttribute t rta s) as [[s1 ok] | |] eqn:E; cbn in Hr;
        try discriminate Hr.
      destruct (Z.eq_dec t L) as [-> | Hne].
      * rewrite Z.leb_refl, Z.sub_diag. cbn.
        specialize (IH (L + 1) _ s' ltac:(lia) ltac:(lia) Hr).
        destruct (Z.leb_spec (L + 1) L) as [Hc | _]; [lia |].
        exists s, s1, ok. auto.
      * specialize (Hshift _ Hr Hne).
        pose proof (frame t rta s s1 ok Hne ltac:(lia) E) as Hf.
        destruct (if t <=? L then (Some rta :: rest) !! Z.to_nat (L - t) else None)
          as [[r |] |].
        -- destruct Hshift as (s0 & s1' & ok' & Hd & H0 & H1).
           exists s0, s1', ok'. rewrite <- Hf. auto.
        -- now rewrite <- Hf.
        -- now rewrite <- Hf.
    + cbn [decodeAttributes] in Hr.
      destruct (Z.eq_dec t L) as [-> | Hne].
      * rewrite Z.leb_refl, Z.sub_diag. cbn.
        specialize (IH (L + 1) s s' ltac:(lia) ltac:(lia) Hr).
        destruct (Z.leb_spec (L + 1) L) as [Hc | _]; [lia |]. exact IH.
      * exact (Hshift s Hr Hne).
Qed.

(** The same, from the start of the table, in terms of [entryAt]. *)
Lemma Decode_at `{ABI} {A : Type} (p : Snapshot -> A) (L hi : Z)
    (frame : forall t rta s s1 ok,
        t <> L -> 0 <= t < hi ->
        decodeAttribute t rta s = Returns (s1, ok) ->
        p (markAttribute t ok s1) = p s)
    (ar : ArchivalRecord) (s s' : Snapshot) :
  len (Attributes ar) <= hi ->
  decodeAttributes 0 (Attributes ar) s = Returns s' ->
  match entryAt ar L with
  | Some rta =>
      exists s0 s1 ok,
        decodeAttribute L rta s0 = Returns (s1, ok)
        /\ p s0 = p s /\ p s' = p (markAttribute L ok s1)
  | None => p s' = p s
  end.
Proof.
  intros Hhi Hr.
  pose proof (decodeAttributes_at p L hi frame (Attributes ar) 0 s s'
                ltac:(lia) ltac:(lia) Hr) as Hat.
  unfold entryAt. rewrite Z.sub_0_r in Hat.
  destruct (Z.ltb_spec L 0) as [Hneg | Hpos].
  - destruct (Z.leb_spec 0 L) as [Hc | _]; [lia |]. exact Hat.
  - destruct (Z.leb_spec 0 L) as [_ | Hc]; [| lia].
    destruct (Attributes ar !! Z.to_nat L) as [[r |] |]; exact Hat.
Qed.

(** The run of an accepted record: the metadata handed back, the snapshot
    the loop starts from, and the loop itself. *)
Lemma Decode_run `{ABI} (ar : ArchivalRecord) (md : option Metadata) (snap : Snapshot) :
  Decode ar = Returns (md, Some snap, None) ->
  md = Metadata_ ar
  /\ exists hdr : option (list byte),
       hdr = match RawIDM ar with
             | Some raw => match RawParse raw with
                           | inr idm => Some idm
                           | inl _ => None
                           end
             | None => None
             end
       /\ decodeAttributes 0 (Attributes ar)
            (set_InetDiagMsg hdr (set_SnapTimestamp (Timestamp ar) emptySnapshot))
          = Returns snap.
Proof.
  unfold Decode. intros Hr.
  assert (Hgen : forall s0 : Snapshot,
            (result2 ← decodeAttributes 0 (Attributes ar) s0;
             mret (Metadata_ ar, Some result2, @None error)) = Returns (md, Some snap, None) ->
            md = Metadata_ ar /\ decodeAttributes 0 (Attributes ar) s0 = Returns snap).
  { intros s0 Hs. destruct (decodeAttributes 0 (Attributes ar) s0); cbn in Hs;
      inversion Hs; auto. }
  destruct (RawIDM ar) as [raw |].
  - destruct (RawParse raw) as [e | idm].
    + destruct (Metadata_ ar); discriminate Hr.
    + assert (Hrun : (result2 ← decodeAttributes 0 (Attributes ar)
                                   (set_InetDiagMsg (Some idm)
                                      (set_SnapTimestamp (Timestamp ar) emptySnapshot));
                      mret (Metadata_ ar, Some result2, @None error))
                     = Returns (md, Some snap, None))
        by (destruct (Metadata_ ar); exact Hr).
      destruct (Hgen _ Hrun) as [Hmd Hloop]. split; [exact Hmd |].
      eexists. split; [reflexivity | exact Hloop].
  - destruct (Metadata_ ar) as [m |] eqn:Em; [| discriminate Hr].
    destruct (Hgen _ Hr) as [Hmd Hloop]. split; [exact Hmd |].
    eexists. split; [reflexivity | exact Hloop].
Qed.

Lemma markAttribute_masks (t : Z) (ok : bool) (s : Snapshot) :
  Observed (markAttribute t ok s) = Z.lor (Observed s) (bitOf t)
  /\ NotFullyParsed (markAttribute t ok s)
     = (if ok then NotFullyParsed s else Z.lor (NotFullyParsed s) (bitOf t)).
Proof. destruct ok; split; reflexivity. Qed.

(** Within a table of at most 257 entries, the bit of a type between 1 and
    32 belongs to no other index. *)
Lemma bitOf_other (T t : Z) :
  1 <= T <= 32 -> 0 <= t < 257 -> t <> T ->
  Z.testbit (bitOf t) (T - 1) = false.
Proof.
  intros HT Ht Hne. rewrite bitOf_testbit by lia. change (2 ^ 8) with 256.
  apply andb_false_iff. left. apply Z.eqb_neq.
  destruct (Z.eq_dec t 0) as [-> | Hnz].
  - change ((0 - 1) mod 256) with 255. lia.
  - rewrite Z.mod_small by lia. lia.
Qed.

Lemma bitOf_self (T : Z) : 1 <= T <= 32 -> Z.testbit (bitOf T) (T - 1) = true.
Proof.
  intros HT. rewrite bitOf_testbit by lia. change (2 ^ 8) with 256.
  rewrite Z.mod_small by lia.
  apply andb_true_iff. split; [apply Z.eqb_eq | apply Z.ltb_lt]; lia.
Qed.

(** What the entry of a type between 1 and 32 contributes to an accepted
    record: a field [f] that only its case assigns holds what that case
    assigned, its [Observed] bit is set, and its [NotFullyParsed] bit is
    the negation of the flag the case left.  Without an entry, the field
    keeps its zero value and both bits are clear. *)
Lemma Decode_entry `{ABI} {A : Type} (f : Snapshot -> A) (L : Z)
    (frame_f : forall t rta s s1 ok,
        t <> L -> decodeAttribute t rta s = Returns (s1, ok) -> f s1 = f s)
    (mark_f : forall t ok s, f (markAttribute t ok s) = f s)
    (init_f : forall hdr ts,
        f (set_InetDiagMsg hdr (set_SnapTimestamp ts emptySnapshot)) = f emptySnapshot)
    (ar : ArchivalRecord) (md : option Metadata) (snap : Snapshot) :
  Decode ar = Returns (md, Some snap, None) ->
  1 <= L <= 32 ->
  len (Attributes ar) <= 257 ->
  match entryAt ar L with
  | Some raw =>
      exists s0 s1 ok,
        decodeAttribute L raw s0 = Returns (s1, ok)
        /\ f snap = f s1
        /\ Z.testbit (Observed snap) (L - 1) = true
        /\ Z.testbit (NotFullyParsed snap) (L - 1) = negb ok
  | None =>
      f snap = f emptySnapshot
      /\ Z.testbit (Observed snap) (L - 1) = false
      /\ Z.testbit (NotFullyParsed snap) (L - 1) = false
  end.
Proof.
  intros Hacc HL Hlen.
  destruct (Decode_run _ _ _ Hacc) as (_ & hdr & _ & Hloop).
  set (p := fun s : Snapshot =>
              (f s, Z.testbit (Observed s) (L - 1), Z.testbit (NotFullyParsed s) (L - 1))).
  assert (frame : forall t rta s s1 ok,
             t <> L -> 0 <= t < 257 ->
             decodeAttribute t rta s = Returns (s1, ok) ->
             p (markAttribute t ok s1) = p s).
  { intros t rta s s1 ok Hne Ht Hd. unfold p.
    destruct (decodeAttribute_masks _ _ _ _ _ Hd) as [HO HN].
    destruct (markAttribute_masks t ok s1) as [-> ->].
    rewrite mark_f, (frame_f _ _ _ _ _ Hne Hd), HO, HN.
    rewrite Z.lor_spec, (bitOf_other L t HL Ht Hne), orb_false_r.
    destruct ok; [reflexivity |].
    now rewrite Z.lor_spec, (bitOf_other L t HL Ht Hne), orb_false_r. }
  pose proof (Decode_at p L 257 frame ar _ _ Hlen Hloop) as Hat.
  assert (Hinit : p (set_InetDiagMsg hdr (set_SnapTimestamp (Timestamp ar) emptySnapshot))
                  = (f emptySnapshot, false, false)).
  { unfold p. rewrite init_f. cbn. now rewrite !Z.bits_0. }
  destruct (entryAt ar L) as [raw |].
  - destruct Hat as (s0 & s1 & ok & Hd & H0 & H1).
    exists s0, s1, ok. split; [exact Hd |].
    rewrite Hinit in H0. unfold p in H0, H1.
    destruct (decodeAttribute_masks _ _ _ _ _ Hd) as [HO HN].
    destruct (markAttribute_masks L ok s1) as [EO EN].
    rewrite mark_f, EO, EN, HO, HN in H1.
    apply pair_equal_spec in H0 as [H0 HN0]. apply pair_equal_spec in H0 as [Hf0 HO0].
    apply pair_equal_spec in H1 as [H1 HN1]. apply pair_equal_spec in H1 as [Hf1 HO1].
    split; [exact Hf1 |]. split.
    + rewrite HO1, Z.lor_spec, (bitOf_self L HL). apply orb_true_r.
    + rewrite HN1. destruct ok; cbn [negb]; [exact HN0 |].
      rewrite Z.lor_spec, (bitOf_self L HL). apply orb_true_r.
  - rewrite Hinit in Hat. unfold p in Hat.
    apply pair_equal_spec in Hat as [Hat HN1].
    apply pair_equal_spec in Hat as [Hf1 HO1]. auto.
Qed.

(** A case other than the one of a struct codec leaves its field alone. *)
Lemma frame_struct `{ABI} (c : structCodec) (t : Z) (rta : list byte)
    (s s1 : Snapshot) (ok : bool) :
  t <> codecLabel c ->
  decodeAttribute t rta s = Returns (s1, ok) ->
  codecField c s1 = codecField c s.
Proof.
  intros Hne Hr.
  destruct c; cbn [codecLabel] in Hne; switch_at Hr;
    try run_codec; inversion Hr; subst; reflexivity.
Qed.

Lemma frame_scalar `{ABI} (k : scalarCodec) (t : Z) (rta : list byte)
    (s s1 : Snapshot) (ok : bool) :
  t <> scalarLabel k ->
  decodeAttribute t rta s = Returns (s1, ok) ->
  scalarField k s1 = scalarField k s.
Proof.
  intros Hne Hr.
  destruct k; cbn [scalarLabel] in Hne; switch_at Hr;
    try run_codec; inversion Hr; subst; reflexivity.
Qed.

Lemma frame_mark `{ABI} (t : Z) (rta : list byte) (s s1 : Snapshot) (ok : bool) :
  t <> INET_DIAG_MARK ->
  decodeAttribute t rta s = Returns (s1, ok) ->
  Mark s1 = Mark s.
Proof.
  intros Hne Hr. switch_at Hr; try run_codec; inversion Hr; subst; reflexivity.
Qed.

Lemma frame_cong `{ABI} (t : Z) (rta : list byte) (s s1 : Snapshot) (ok : bool) :
  t <> INET_DIAG_CONG ->
  decodeAttribute t rta s = Returns (s1, ok) ->
  CongestionAlgorithm s1 = CongestionAlgorithm s.
Proof.
  intros Hne Hr. switch_at Hr; try run_codec; inversion Hr; subst; reflexivity.
Qed.

(** No case assigns the timestamp or the header. *)
Lemma frame_header `{ABI} (t : Z) (rta : list byte) (s s1 : Snapshot) (ok : bool) :
  decodeAttribute t rta s = Returns (s1, ok) ->
  SnapTimestamp s1 = SnapTimestamp s /\ InetDiagMsg s1 = InetDiagMsg s.
Proof.
  intros Hr. switch_at Hr; try run_codec; inversion Hr; subst; split; reflexivity.
Qed.

(** At the label of a struct codec, that codec runs and fills its field. *)
Lemma at_struct `{ABI} (wf : abi_wf H) (c : structCodec) (rta : list byte)
    (s0 s1 : Snapshot) (ok : bool) :
  decodeAttribute (codecLabel c) rta s0 = Returns (s1, ok) ->
  runCodec c rta = Returns (codecField c s1, ok).
Proof.
  intros Hr. distinct_labels wf.
  destruct c; cbn [codecLabel] in Hr; switch_at Hr;
    run_codec; inversion Hr; subst;
    first [reflexivity | match goal with E : _ = Returns _ |- _ => exact E end].
Qed.

Lemma at_scalar `{ABI} (wf : abi_wf H) (k : scalarCodec) (rta : list byte)
    (s0 s1 : Snapshot) (ok : bool) :
  decodeAttribute (scalarLabel k) rta s0 = Returns (s1, ok) ->
  toUint8 rta = Returns (scalarField k s1, ok).
Proof.
  intros Hr. distinct_labels wf.
  destruct k; cbn [scalarLabel] in Hr; switch_at Hr;
    run_codec; inversion Hr; subst;
    first [reflexivity | match goal with E : _ = Returns _ |- _ => exact E end].
Qed.

Lemma at_mark `{ABI} (wf : abi_wf H) (rta : list byte) (s0 s1 : Snapshot) (ok : bool) :
  decodeAttribute INET_DIAG_MARK rta s0 = Returns (s1, ok) ->
  toMark rta = Returns (Mark s1, ok).
Proof.
  intros Hr. distinct_labels wf. switch_at Hr.
  run_codec; inversion Hr; subst;
    first [reflexivity | match goal with E : _ = Returns _ |- _ => exact E end].
Qed.

Lemma at_cong `{ABI} (wf : abi_wf H) (rta : list byte) (s0 s1 : Snapshot) (ok : bool) :
  decodeAttribute INET_DIAG_CONG rta s0 = Returns (s1, ok) ->
  CongestionAlgorithm_ rta = Returns (CongestionAlgorithm s1, ok).
Proof.
  intros Hr. distinct_labels wf. switch_at Hr.
  run_codec; inversion Hr; subst;
    first [reflexivity | match goal with E : _ = Returns _ |- _ => exact E end].
Qed.

(** At a type that is no label, the default case runs: nothing is
    assigned and the flag stays false. *)
Lemma at_unhandled `{ABI} (T : Z) (rta : list byte) (s0 s1 : Snapshot) (ok : bool) :
  ~ In T case_labels ->
  decodeAttribute T rta s0 = Returns (s1, ok) ->
  s1 = s0 /\ ok = false.
Proof.
  intros Hnot Hr. unfold case_labels in Hnot. cbn [In] in Hnot.
  unfold decodeAttribute in Hr.
  repeat match type of Hr with
         | context [if ?a =? ?b then _ else _] =>
             destruct (Z.eqb_spec a b); [exfalso; apply Hnot; subst; tauto |]
         end.
  inversion Hr; auto.
Qed.

(** X6.  In an accepted record with a table of at most 257 entries, for
    each struct attribute whose type code lies between 1 and 32: when the
    table has an entry for it, the snapshot field holds that entry cut or
    zero-padded to the struct size, the [Observed] bit is set, and the
    [NotFullyParsed] bit is set exactly when the entry is longer than the
    struct; when it has none, the field is nil and both bits are clear. *)
Theorem decode_struct_attribute `{ABI} (wf : abi_wf H) (ar : ArchivalRecord)
    (md : option Metadata) (snap : Snapshot) (c : structCodec) :
  Decode ar = Returns (md, Some snap, None) ->
  1 <= codecLabel c <= 32 ->
  len (Attributes ar) <= 257 ->
  match entryAt ar (codecLabel c) with
  | Some raw =>
      codecField c snap
      = Some (firstn (Z.to_nat (structSize c))
                (raw ++ repeat x00 (Z.to_nat (structSize c))))
      /\ Z.testbit (Observed snap) (codecLabel c - 1) = true
      /\ Z.testbit (NotFullyParsed snap) (codecLabel c - 1) = (structSize c <? len raw)
  | None =>
      codecField c snap = None
      /\ Z.testbit (Observed snap) (codecLabel c - 1) = false
      /\ Z.testbit (NotFullyParsed snap) (codecLabel c - 1) = false
  end.
Proof.
  intros Hacc HL Hlen.
  pose proof (Decode_entry (codecField c) (codecLabel c)
                (frame_struct c)
                ltac:(intros t ok s; destruct c, ok; reflexivity)
                ltac:(intros hdr ts; destruct c; reflexivity)
                ar md snap Hacc HL Hlen) as He.
  destruct (entryAt ar (codecLabel c)) as [raw |].
  - destruct He as (s0 & s1 & ok & Hd & Hf & HO & HN).
    apply (at_struct wf) in Hd.
    rewrite (runCodec_value c raw (sizes_positive _ wf c)) in Hd.
    inversion Hd as [[Hv Hok]].
    split; [now rewrite Hf, <- Hv |]. split; [exact HO |].
    rewrite HN, <- Hok. symmetry. apply Z.ltb_antisym.
  - destruct c; exact He.
Qed.

Lemma decode_struct_attribute_witness :
  exists snap : Snapshot,
    Decode (H := linux_amd64) (metadataRecord [None; Some (repeat x01 20)])
    = Returns (Metadata_ (metadataRecord []), Some snap, None)
    /\ MemInfo snap = Some (repeat x01 16)
    /\ Z.testbit (Observed snap) 0 = true
    /\ Z.testbit (NotFullyParsed snap) 0 = true.
Proof.
  eexists. split; [reflexivity |].
  refine (decode_struct_attribute (H := linux_amd64) linux_amd64_wf
            (metadataRecord [None; Some (repeat x01 20)]) _ _ CMemInfo eq_refl _ _).
  - simpl. lia.
  - vm_compute. discriminate.
Defined.

(** X7.  In an accepted record with a table of at most 257 entries, for
    each one-byte attribute (TOS, TCLASS, class id, shutdown, protocol)
    whose type code lies between 1 and 32: a non-empty entry puts its first
    byte in the field and leaves [NotFullyParsed] clear, whatever follows
    that byte; an empty entry leaves the field 0 and sets the
    [NotFullyParsed] bit; without an entry the field is 0 and both bits are
    clear. *)
Theorem decode_scalar_attribute `{ABI} (wf : abi_wf H) (ar : ArchivalRecord)
    (md : option Metadata) (snap : Snapshot) (k : scalarCodec) :
  Decode ar = Returns (md, Some snap, None) ->
  1 <= scalarLabel k <= 32 ->
  len (Attributes ar) <= 257 ->
  match entryAt ar (scalarLabel k) with
  | Some (b :: _) =>
      scalarField k snap = byteZ b
      /\ Z.testbit (Observed snap) (scalarLabel k - 1) = true
      /\ Z.testbit (NotFullyParsed snap) (scalarLabel k - 1) = false
  | Some [] =>
      scalarField k snap = 0
      /\ Z.testbit (Observed snap) (scalarLabel k - 1) = true
      /\ Z.testbit (NotFullyParsed snap) (scalarLabel k - 1) = true
  | None =>
      scalarField k snap = 0
      /\ Z.testbit (Observed snap) (scalarLabel k - 1) = false
      /\ Z.testbit (NotFullyParsed snap) (scalarLabel k - 1) = false
  end.
Proof.
  intros Hacc HL Hlen.
  pose proof (Decode_entry (scalarField k) (scalarLabel k)
                (frame_scalar k)
                ltac:(intros t ok s; destruct k, ok; reflexivity)
                ltac:(intros hdr ts; destruct k; reflexivity)
                ar md snap Hacc HL Hlen) as He.
  destruct (entryAt ar (scalarLabel k)) as [raw |].
  - destruct He as (s0 & s1 & ok & Hd & Hf & HO & HN).
    apply (at_scalar wf) in Hd.
    destruct raw as [| b rest]; cbn in Hd; inversion Hd as [[Hv Hok]];
      (split; [now rewrite Hf, <- Hv |]); (split; [exact HO |]);
      now rewrite HN, <- Hok.
  - destruct k; exact He.
Qed.

Lemma decode_scalar_attribute_witness :
  exists snap : Snapshot,
    Decode (H := linux_amd64)
      (metadataRecord [None; None; None; None; None; Some [x1c; xff]])
    = Returns (Metadata_ (metadataRecord []), Some snap, None)
    /\ TOS snap = byteZ x1c
    /\ Z.testbit (Observed snap) 4 = true
    /\ Z.testbit (NotFullyParsed snap) 4 = false.
Proof.
  eexists. split; [reflexivity |].
  refine (decode_scalar_attribute (H := linux_amd64) linux_amd64_wf
            (metadataRecord [None; None; None; None; None; Some [x1c; xff]])
            _ _ STOS eq_refl _ _).
  - simpl. lia.
  - vm_compute. discriminate.
Defined.

(** X8.  In an accepted record with a table of at most 257 entries, when
    the type code of the socket mark lies between 1 and 32: a 4-byte entry
    puts the integer it spells in native byte order in [Mark] and leaves
    [NotFullyParsed] clear; an entry of any other length leaves [Mark] 0
    and sets the [NotFullyParsed] bit. *)
Theorem decode_mark_attribute `{ABI} (wf : abi_wf H) (ar : ArchivalRecord)
    (md : option Metadata) (snap : Snapshot) :
  Decode ar = Returns (md, Some snap, None) ->
  1 <= INET_DIAG_MARK <= 32 ->
  len (Attributes ar) <= 257 ->
  match entryAt ar INET_DIAG_MARK with
  | Some raw =>
      Mark snap = (if len raw =? 4 then uint_of native raw else 0)
      /\ Z.testbit (Observed snap) (INET_DIAG_MARK - 1) = true
      /\ Z.testbit (NotFullyParsed snap) (INET_DIAG_MARK - 1) = negb (len raw =? 4)
  | None =>
      Mark snap = 0
      /\ Z.testbit (Observed snap) (INET_DIAG_MARK - 1) = false
      /\ Z.testbit (NotFullyParsed snap) (INET_DIAG_MARK - 1) = false
  end.
Proof.
  intros Hacc HL Hlen.
  pose proof (Decode_entry Mark INET_DIAG_MARK
                (fun t rta s s1 ok => frame_mark t rta s s1 ok)
                ltac:(intros t ok s; destruct ok; reflexivity)
                ltac:(intros hdr ts; reflexivity)
                ar md snap Hacc HL Hlen) as He.
  destruct (entryAt ar INET_DIAG_MARK) as [raw |]; [| exact He].
  destruct He as (s0 & s1 & ok & Hd & Hf & HO & HN).
  apply (at_mark wf) in Hd. unfold toMark in Hd.
  destruct (len raw =? 4); cbn in Hd; inversion Hd as [[Hv Hok]];
    (split; [now rewrite Hf, <- Hv |]); (split; [exact HO |]);
    now rewrite HN, <- Hok.
Qed.

Lemma decode_mark_attribute_witness :
  exists snap : Snapshot,
    Decode (H := linux_amd64)
      (metadataRecord (repeat None 15 ++ [Some [x01; x02; x00; x00]]))
    = Returns (Metadata_ (metadataRecord []), Some snap, None)
    /\ Mark snap = 513
    /\ Z.testbit (Observed snap) 14 = true
    /\ Z.testbit (NotFullyParsed snap) 14 = false.
Proof.
  eexists. split; [reflexivity |].
  refine (decode_mark_attribute (H := linux_amd64) linux_amd64_wf
            (metadataRecord (repeat None 15 ++ [Some [x01; x02; x00; x00]]))
            _ _ eq_refl _ _).
  - simpl. lia.
  - vm_compute. discriminate.
Defined.

(** X9.  In an accepted record with a table of at most 257 entries, when
    the type code of the congestion algorithm lies between 1 and 32: an
    entry for it is non-empty, [CongestionAlgorithm] is that entry without
    its last byte (whatever that byte is), and [NotFullyParsed] stays
    clear; without an entry the string is empty. *)
Theorem decode_congestion_attribute `{ABI} (wf : abi_wf H) (ar : ArchivalRecord)
    (md : option Metadata) (snap : Snapshot) :
  Decode ar = Returns (md, Some snap, None) ->
  1 <= INET_DIAG_CONG <= 32 ->
  len (Attributes ar) <= 257 ->
  match entryAt ar INET_DIAG_CONG with
  | Some raw =>
      (exists (name : list byte) (last : byte),
          raw = name ++ [last] /\ CongestionAlgorithm snap = name)
      /\ Z.testbit (Observed snap) (INET_DIAG_CONG - 1) = true
      /\ Z.testbit (NotFullyParsed snap) (INET_DIAG_CONG - 1) = false
  | None =>
      CongestionAlgorithm snap = []
      /\ Z.testbit (Observed snap) (INET_DIAG_CONG - 1) = false
      /\ Z.testbit (NotFullyParsed snap) (INET_DIAG_CONG - 1) = false
  end.
Proof.
  intros Hacc HL Hlen.
  pose proof (Decode_entry CongestionAlgorithm INET_DIAG_CONG
                (fun t rta s s1 ok => frame_cong t rta s s1 ok)
                ltac:(intros t ok s; destruct ok; reflexivity)
                ltac:(intros hdr ts; reflexivity)
                ar md snap Hacc HL Hlen) as He.
  destruct (entryAt ar INET_DIAG_CONG) as [raw |]; [| exact He].
  destruct He as (s0 & s1 & ok & Hd & Hf & HO & HN).
  apply (at_cong wf) in Hd.
  assert (Hne : raw <> []) by (intros ->; discriminate Hd).
  rewrite (CongestionAlgorithm_returns raw Hne) in Hd. inversion Hd as [[Hv Hok]].
  split; [| split; [exact HO | now rewrite HN, <- Hok]].
  destruct (exists_last Hne) as (name & last & ->).
  exists name, last. split; [reflexivity |].
  rewrite Hf, <- Hv, length_app. cbn [length].
  replace (length name + 1 - 1)%nat with (length name) by lia.
  now rewrite firstn_app, firstn_all, Nat.sub_diag, app_nil_r.
Qed.

Lemma decode_congestion_attribute_witness :
  exists snap : Snapshot,
    Decode (H := linux_amd64) (metadataRecord [None; None; None; None; Some cubic])
    = Returns (Metadata_ (metadataRecord []), Some snap, None)
    /\ (exists (name : list byte) (last : byte),
           cubic = name ++ [last] /\ CongestionAlgorithm snap = name)
    /\ Z.testbit (Observed snap) 3 = true
    /\ Z.testbit (NotFullyParsed snap) 3 = false.
Proof.
  eexists. split; [reflexivity |].
  refine (decode_congestion_attribute (H := linux_amd64) linux_amd64_wf
            (metadataRecord [None; None; None; None; Some cubic]) _ _ eq_refl _ _).
  - simpl. lia.
  - vm_compute. discriminate.
Defined.

(** X10.  In an accepted record with a table of at most 257 entries, a
    non-nil entry at a type between 1 and 32 that is none of the labels of
    the [switch] falls to the default case: both its [Observed] bit and its
    [NotFullyParsed] bit are set. *)
Theorem decode_unhandled_attribute `{ABI} (ar : ArchivalRecord)
    (md : option Metadata) (snap : Snapshot) (T : Z) (raw : list byte) :
  Decode ar = Returns (md, Some snap, None) ->
  ~ In T case_labels ->
  1 <= T <= 32 ->
  len (Attributes ar) <= 257 ->
  entryAt ar T = Some raw ->
  Z.testbit (Observed snap) (T - 1) = true
  /\ Z.testbit (NotFullyParsed snap) (T - 1) = true.
Proof.
  intros Hacc Hnot HT Hlen Hentry.
  pose proof (Decode_entry (fun _ => tt) T
                ltac:(reflexivity) ltac:(reflexivity) ltac:(reflexivity)
                ar md snap Hacc HT Hlen) as He.
  rewrite Hentry in He. destruct He as (s0 & s1 & ok & Hd & _ & HO & HN).
  destruct (at_unhandled T raw s0 s1 ok Hnot Hd) as [_ ->].
  split; [exact HO | exact HN].
Qed.

Lemma decode_unhandled_attribute_witness :
  exists snap : Snapshot,
    Decode (H := linux_amd64) (metadataRecord (repeat None 25 ++ [Some [x09]]))
    = Returns (Metadata_ (metadataRecord []), Some snap, None)
    /\ Z.testbit (Observed snap) (25 - 1) = true
    /\ Z.testbit (NotFullyParsed snap) (25 - 1) = true.
Proof.
  eexists. split; [reflexivity |].
  refine (decode_unhandled_attribute (H := linux_amd64)
            (metadataRecord (repeat None 25 ++ [Some [x09]])) _ _ 25 [x09]
            eq_refl _ _ _ eq_refl).
  - simpl. lia.
  - lia.
  - vm_compute. discriminate.
Defined.

Lemma decodeAttributes_header `{ABI} (attrs : list (option (list byte))) :
  forall (t : Z) (s s' : Snapshot),
    decodeAttributes t attrs s = Returns s' ->
    SnapTimestamp s' = SnapTimestamp s /\ InetDiagMsg s' = InetDiagMsg s.
Proof.
  induction attrs as [| [rta |] rest IH]; intros t s s' Hr.
  - cbn in Hr. inversion Hr; auto.
  - rewrite decodeAttributes_some in Hr.
    destruct (decodeAttribute t rta s) as [[s1 ok] | |] eqn:E; cbn in Hr;
      try discriminate Hr.
    destruct (IH _ _ _ Hr) as [HT HI]. destruct (frame_header _ _ _ _ _ E) as [HT1 HI1].
    rewrite HT, HI, <- HT1, <- HI1. destruct ok; auto.
  - cbn [decodeAttributes] in Hr. apply (IH _ _ _ Hr).
Qed.

(** X11.  An accepted record hands back its own metadata; the snapshot
    carries the record's timestamp; and its header is nil when the record
    has no raw header, and otherwise is what the header parser made of it,
    whatever the attribute table holds. *)
Theorem decode_timestamp_and_header `{ABI} (ar : ArchivalRecord)
    (md : option Metadata) (snap : Snapshot) :
  Decode ar = Returns (md, Some snap, None) ->
  md = Metadata_ ar
  /\ SnapTimestamp snap = Timestamp ar
  /\ match RawIDM ar with
     | None => InetDiagMsg snap = None
     | Some raw => exists idm, RawParse raw = inr idm /\ InetDiagMsg snap = Some idm
     end.
Proof.
  intros Hacc. destruct (Decode_run _ _ _ Hacc) as (Hmd & hdr & Hhdr & Hloop).
  destruct (decodeAttributes_header _ _ _ _ Hloop) as [HT HI]. cbn in HT, HI.
  split; [exact Hmd |]. split; [exact HT |].
  destruct (RawIDM ar) as [raw |] eqn:Eraw; [| now rewrite HI, Hhdr].
  unfold Decode in Hacc. rewrite Eraw in Hacc.
  destruct (RawParse raw) as [e | idm].
  - destruct (Metadata_ ar); discriminate Hacc.
  - exists idm. split; [reflexivity |]. now rewrite HI, Hhdr.
Qed.

Lemma decode_timestamp_and_header_witness :
  exists snap : Snapshot,
    Decode (H := linux_amd64)
      {| Timestamp := 1700; RawIDM := Some (repeat x02 72);
         Attributes := [None; None; None; None; Some cubic]; Metadata_ := None |}
    = Returns (None, Some snap, None)
    /\ SnapTimestamp snap = 1700
    /\ exists idm, sampleParse (repeat x02 72) = inr idm /\ InetDiagMsg snap = Some idm.
Proof.
  eexists. split; [reflexivity |].
  exact (proj2 (decode_timestamp_and_header (H := linux_amd64)
                  {| Timestamp := 1700; RawIDM := Some (repeat x02 72);
                     Attributes := [None; None; None; None; Some cubic];
                     Metadata_ := None |} _ _ eq_refl)).
Defined.

(** X12.  When the record has a raw header and the header parser rejects
    it, [Decode] returns that error with a nil snapshot and nil metadata,
    even if the record carries metadata, and without looking at the
    attribute table (so also for a table on which the loop would panic). *)
Theorem decode_header_error `{ABI} (ar : ArchivalRecord) (raw : list byte) (e : sentinel) :
  RawIDM ar = Some raw ->
  RawParse raw = inl e ->
  Decode ar = Returns (None, None, Some (Sentinel e)).
Proof.
  intros Hraw Hparse. unfold Decode. rewrite Hraw, Hparse.
  destruct (Metadata_ ar); reflexivity.
Qed.

Lemma decode_header_error_witness :
  Decode (H := linux_amd64)
    {| Timestamp := 0; RawIDM := Some [x02];
       Attributes := [None; None; None; None; Some []];
       Metadata_ := Some {| UUID := []; Sequence := 3; StartTime := 0 |} |}
  = Returns (None, None, Some (Sentinel ErrParseFailed)).
Proof.
  apply (decode_header_error (H := linux_amd64)
           {| Timestamp := 0; RawIDM := Some [x02];
              Attributes := [None; None; None; None; Some []];
              Metadata_ := Some {| UUID := []; Sequence := 3; StartTime := 0 |} |}
           [x02] ErrParseFailed); reflexivity.
Defined.

(* ------------------------------------------------------------------ *)
(** *** TLV splitter: results, errors and composition                  *)
(* ------------------------------------------------------------------ *)

(** Fuel beyond the length of the buffer changes nothing. *)
Lemma parseRouteAttrLoop_fuel_irrelevant (o : ByteOrder) (f1 : nat) :
  forall (f2 : nat) (b : list byte) (acc : list NetlinkRouteAttr),
    (length b <= f1)%nat -> (length b <= f2)%nat ->
    parseRouteAttrLoop o f1 b acc = parseRouteAttrLoop o f2 b acc.
Proof.
  induction f1 as [| f1 IH]; intros f2 b acc H1 H2.
  - destruct f2; cbn;
      (destruct (Z.leb_spec SizeofRtAttr (len b)) as [Hge | _]; [| reflexivity]);
      unfold len, SizeofRtAttr in Hge; lia.
  - destruct f2 as [| f2].
    + cbn. destruct (Z.leb_spec SizeofRtAttr (len b)) as [Hge | _]; [| reflexivity].
      unfold len, SizeofRtAttr in Hge. lia.
    + cbn [parseRouteAttrLoop].
      destruct (negb (SizeofRtAttr <=? len b)); [reflexivity |].
      destruct (netlinkRouteAttrAndValue o b) as [e | [[a vbuf] alen]] eqn:E;
        [reflexivity |].
      destruct (netlinkRouteAttrAndValue_ok _ _ _ _ _ E) as (_ & Hl & Ha).
      destruct (sliceTo vbuf (RtaLen a - SizeofRtAttr)) as [value | |]; cbn;
        try reflexivity.
      unfold sliceFrom.
      destruct ((alen <? 0) || (len b <? alen)); cbn; [reflexivity |].
      apply IH; rewrite length_skipn; unfold len, SizeofRtAttr in *; lia.
Qed.

(** The attributes collected so far are a prefix of a successful result. *)
Lemma parseRouteAttrLoop_acc (o : ByteOrder) (fuel : nat) :
  forall (b : list byte) (acc : list NetlinkRouteAttr),
    parseRouteAttrLoop o fuel b acc
    = prependAttrs acc (parseRouteAttrLoop o fuel b []).
Proof.
  induction fuel as [| fuel IH]; intros b acc.
  - cbn. destruct (negb (SizeofRtAttr <=? len b)); cbn; [now rewrite app_nil_r | reflexivity].
  - cbn [parseRouteAttrLoop].
    destruct (negb (SizeofRtAttr <=? len b)); cbn; [now rewrite app_nil_r |].
    destruct (netlinkRouteAttrAndValue o b) as [e | [[a vbuf] alen]]; [reflexivity |].
    destruct (sliceTo vbuf (RtaLen a - SizeofRtAttr)) as [value | |]; cbn;
      try reflexivity.
    destruct (sliceFrom b alen) as [b' | |]; cbn; try reflexivity.
    rewrite (IH b' (acc ++ _)), (IH b' [_]).
    destruct (parseRouteAttrLoop o fuel b' []) as [[attrs [e |]] | |]; cbn;
      try reflexivity.
    now rewrite <- app_assoc.
Qed.

Lemma sliceTo_length (v : list byte) (n : Z) (r : list byte) :
  sliceTo v n = Returns r -> len r = n /\ r = firstn (Z.to_nat n) v.
Proof.
  unfold sliceTo.
  destruct (Z.ltb_spec n 0) as [| Hn]; [discriminate |].
  destruct (Z.ltb_spec (len v) n) as [| Hv]; [discriminate |].
  cbn. intros Hr. inversion Hr. split; [| reflexivity].
  unfold len in *. rewrite length_take. lia.
Qed.

(** What the loop returns: on an error nothing; on success the collected
    attributes, each new one with a value of its declared length less the
    header and a type that fits 16 bits. *)
Lemma parseRouteAttrLoop_result (o : ByteOrder) (fuel : nat) :
  forall (b : list byte) (acc attrs : list NetlinkRouteAttr) (err : option error),
    parseRouteAttrLoop o fuel b acc = Returns (attrs, err) ->
    match err with
    | Some _ => attrs = []
    | None =>
        exists new,
          attrs = acc ++ new
          /\ Forall (fun a => len (Value a) = RtaLen (Attr a) - SizeofRtAttr
                              /\ 0 <= RtaType (Attr a) < 2 ^ 16) new
    end.
Proof.
  induction fuel as [| fuel IH]; intros b acc attrs err Hr.
  - cbn in Hr. destruct (negb (SizeofRtAttr <=? len b)); [| discriminate Hr].
    inversion Hr; subst. exists []. split; [now rewrite app_nil_r | constructor].
  - cbn [parseRouteAttrLoop] in Hr.
    destruct (negb (SizeofRtAttr <=? len b)).
    { inversion Hr; subst. exists []. split; [now rewrite app_nil_r | constructor]. }
    destruct (netlinkRouteAttrAndValue o b) as [e | [[a vbuf] alen]] eqn:E.
    { inversion Hr; subst. reflexivity. }
    destruct (sliceTo vbuf (RtaLen a - SizeofRtAttr)) as [value | |] eqn:Ev;
      cbn in Hr; try discriminate Hr.
    destruct (sliceFrom b alen) as [b' | |]; cbn in Hr; try discriminate Hr.
    specialize (IH _ _ _ _ Hr). destruct err as [e |]; [exact IH |].
    destruct IH as (new & -> & Hnew).
    exists ({| Attr := a; Value := value |} :: new).
    split; [now rewrite <- app_assoc |]. constructor; [| exact Hnew]. cbn.
    split; [apply (sliceTo_length _ _ _ Ev) |].
    unfold netlinkRouteAttrAndValue in E.
    destruct (_ || _) in E; [discriminate E |]. inversion E; subst. cbn.
    pose proof (uint_of_bound o (firstn 2 (skipn 2 b))) as Hb.
    assert (Hle : 8 * len (firstn 2 (skipn 2 b)) <= 16)
      by (unfold len; rewrite length_take; lia).
    split; [lia |]. apply Z.lt_le_trans with (2 ^ (8 * len (firstn 2 (skipn 2 b)))); [lia |].
    apply Z.pow_le_mono_r; lia.
Qed.

(** X13.  When the splitter returns an error it returns no attribute at
    all: those split off before the faulty one are discarded. *)
Theorem split_error_discards (o : ByteOrder) (b : list byte)
    (attrs : list NetlinkRouteAttr) (e : error) :
  ParseRouteAttr o b = Returns (attrs, Some e) -> attrs = [].
Proof. intros Hr. apply (parseRouteAttrLoop_result _ _ _ _ _ _ Hr). Qed.

Lemma split_error_discards_witness :
  @nil NetlinkRouteAttr = [].
Proof.
  apply (split_error_discards LittleEndian
           [x05; x00; x04; x00; x63; x00; x00; x00; x09; x00; x02; x00]
           [] (Sentinel ErrTruncatedAttribute)).
  reflexivity.
Defined.

(** X14.  Every attribute of a successful split has a value of exactly
    its declared length less the header size, and a type below 65536. *)
Theorem split_attribute_shape (o : ByteOrder) (b : list byte)
    (attrs : list NetlinkRouteAttr) :
  ParseRouteAttr o b = Returns (attrs, None) ->
  Forall (fun a => len (Value a) = RtaLen (Attr a) - SizeofRtAttr
                   /\ 0 <= RtaType (Attr a) < 2 ^ 16) attrs.
Proof.
  intros Hr. destruct (parseRouteAttrLoop_result _ _ _ _ _ _ Hr) as (new & -> & Hnew).
  exact Hnew.
Qed.

Lemma split_attribute_shape_witness :
  Forall (fun a => len (Value a) = RtaLen (Attr a) - SizeofRtAttr
                   /\ 0 <= RtaType (Attr a) < 2 ^ 16)
    [ {| Attr := {| RtaLen := 10; RtaType := 4 |}; Value := cubic |};
      {| Attr := {| RtaLen := 5; RtaType := 100 |}; Value := [x01] |};
      {| Attr := {| RtaLen := 5; RtaType := 4 |}; Value := [x07] |} ].
Proof.
  apply (split_attribute_shape LittleEndian (skipn 72 (Data sampleMessage))).
  reflexivity.
Defined.






(** X16.  Splitting composes along the buffer, in wire order: a buffer
    that starts with a 4-byte header declaring the length of the header and
    a value, followed by that value and by the padding up to the next
    multiple of 4, splits into that attribute followed by the split of the
    rest; a failure in the rest is the failure of the whole. *)
Theorem split_cons (o : ByteOrder) (h0 h1 h2 h3 : byte) (value pad rest : list byte) :
  uint_of o [h0; h1] = SizeofRtAttr + len value ->
  len pad = rtaAlignOf (SizeofRtAttr + len value) - (SizeofRtAttr + len value) ->
  ParseRouteAttr o ([h0; h1; h2; h3] ++ value ++ pad ++ rest)
  = prependAttrs
      [ {| Attr := {| RtaLen := SizeofRtAttr + len value; RtaType := uint_of o [h2; h3] |};
           Value := value |} ]
      (ParseRouteAttr o rest).
Proof.
  intros Hlen Hpad. unfold ParseRouteAttr.
  set (b := [h0; h1; h2; h3] ++ value ++ pad ++ rest).
  assert (Hb : len b = 4 + len value + len pad + len rest).
  { unfold b, len. rewrite !length_app. cbn [length]. lia. }
  pose proof (Nat2Z.is_nonneg (length value)) as Hv. fold (len value) in Hv.
  pose proof (Nat2Z.is_nonneg (length pad)) as Hp. fold (len pad) in Hp.
  pose proof (Nat2Z.is_nonneg (length rest)) as Hr. fold (len rest) in Hr.
  unfold SizeofRtAttr in *.
  destruct (length b) as [| fuel] eqn:Ef; [unfold len in Hb; lia |].
  cbn [parseRouteAttrLoop]. unfold SizeofRtAttr.
  destruct (Z.leb_spec 4 (len b)) as [_ | Hc]; [| lia]. cbn [negb].
  unfold netlinkRouteAttrAndValue. cbn [RtaLen RtaType].
  change (firstn 2 b) with [h0; h1]. change (firstn 2 (skipn 2 b)) with [h2; h3].
  rewrite Hlen. unfold SizeofRtAttr.
  destruct (Z.ltb_spec (4 + len value) 4) as [| _]; [lia |].
  destruct (Z.ltb_spec (len b) (4 + len value)) as [| _]; [lia |].
  cbn [orb]. cbv beta iota. cbn [RtaLen].
  change (skipn (Z.to_nat 4) b) with (value ++ pad ++ rest).
  unfold sliceTo.
  replace (4 + len value - 4) with (len value) by lia.
  destruct (Z.ltb_spec (len value) 0) as [| _]; [lia |].
  destruct (Z.ltb_spec (len (value ++ pad ++ rest)) (len value)) as [Hc | _].
  { unfold len in *. rewrite !length_app in Hc. lia. }
  cbn [orb mbind outcome_bind].
  replace (firstn (Z.to_nat (len value)) (value ++ pad ++ rest)) with value.
  2: { unfold len. rewrite Nat2Z.id, firstn_app, firstn_all, Nat.sub_diag.
       cbn. now rewrite app_nil_r. }
  unfold sliceFrom.
  assert (Ha : rtaAlignOf (4 + len value) = 4 + len value + len pad) by lia.
  rewrite Ha.
  destruct (Z.ltb_spec (4 + len value + len pad) 0) as [| _]; [lia |].
  destruct (Z.ltb_spec (len b) (4 + len value + len pad)) as [| _]; [lia |].
  cbn [orb mbind outcome_bind].
  replace (skipn (Z.to_nat (4 + len value + len pad)) b) with rest.
  2: { replace (Z.to_nat (4 + len value + len pad))
         with (length ([h0; h1; h2; h3] ++ value ++ pad))
         by (unfold len; rewrite !length_app; cbn [length]; lia).
       replace b with (([h0; h1; h2; h3] ++ value ++ pad) ++ rest)
         by (unfold b; now rewrite <- !app_assoc).
       symmetry. apply drop_app_length. }
  cbn [app]. rewrite parseRouteAttrLoop_acc. f_equal.
  apply parseRouteAttrLoop_fuel_irrelevant; [| lia].
  unfold len in Hb. lia.
Qed.

Lemma split_cons_witness :
  ParseRouteAttr LittleEndian
    ([x05; x00; x08; x00] ++ [x1c] ++ [x00; x00; x00]
     ++ [x0a; x00; x04; x00; x63; x75; x62; x69; x63; x00; x00; x00])
  = prependAttrs
      [ {| Attr := {| RtaLen := SizeofRtAttr + len [x1c];
                      RtaType := uint_of LittleEndian [x08; x00] |};
           Value := [x1c] |} ]
      (ParseRouteAttr LittleEndian
         [x0a; x00; x04; x00; x63; x75; x62; x69; x63; x00; x00; x00]).
Proof.
  apply (split_cons LittleEndian x05 x00 x08 x00 [x1c] [x00; x00; x00]); reflexivity.
Defined.

(* ------------------------------------------------------------------ *)
(** *** Record extractor: results with and without the local filter    *)
(* ------------------------------------------------------------------ *)

(** What a returned record tells about the run of [MakeArchivalRecord]. *)
Lemma MakeArchivalRecord_record `{ABI} (msg : NetlinkMessage) (skipLocal : bool)
    (rec : ArchivalRecord) (err : option error) :
  MakeArchivalRecord msg skipLocal = Returns (Some rec, err) ->
  err = None
  /\ Type_ (Header msg) = 20
  /\ exists rawIDM attrBytes attrs,
       SplitInetDiagMsg (Data msg) = (Some rawIDM, attrBytes)
       /\ (skipLocal = true ->
           exists idm, RawParse rawIDM = inr idm
                       /\ isLocal (SrcIP idm) || isLocal (DstIP idm) = false)
       /\ ParseRouteAttr native attrBytes = Returns (attrs, None)
       /\ buildAttributes attrs = Returns (Attributes rec)
       /\ RawIDM rec = Some rawIDM /\ Metadata_ rec = None /\ Timestamp rec = 0.
Proof.
  unfold MakeArchivalRecord. intros Hr.
  destruct (Z.eqb_spec (Type_ (Header msg)) 20) as [Hty | Hty]; cbn [negb] in Hr;
    [| discriminate Hr].
  destruct (SplitInetDiagMsg (Data msg)) as [[rawIDM |] attrBytes]; [| discriminate Hr].
  assert (Hloc : skipLocal = true ->
                 exists idm, RawParse rawIDM = inr idm
                             /\ isLocal (SrcIP idm) || isLocal (DstIP idm) = false).
  { intros ->. destruct (RawParse rawIDM) as [e | idm]; [discriminate Hr |].
    exists idm. split; [reflexivity |].
    destruct (isLocal (SrcIP idm) || isLocal (DstIP idm)); [discriminate Hr | reflexivity]. }
  assert (Hrest : ('(attrs, err) ← ParseRouteAttr native attrBytes;
                   match err with
                   | Some e => Returns (None, Some e)
                   | None =>
                       table ← buildAttributes attrs;
                       mret (Some {| Timestamp := 0; RawIDM := Some rawIDM;
                                     Attributes := table; Metadata_ := None |},
                             @None error)
                   end) = Returns (Some rec, err)).
  { destruct skipLocal; [| exact Hr].
    destruct (RawParse rawIDM) as [e | idm]; [discriminate Hr |].
    destruct (isLocal (SrcIP idm) || isLocal (DstIP idm)); [discriminate Hr | exact Hr]. }
  destruct (ParseRouteAttr native attrBytes) as [[attrs [e |]] | |] eqn:Ep;
    cbn in Hrest; try discriminate Hrest.
  destruct (buildAttributes attrs) as [table | |] eqn:Eb; cbn in Hrest;
    try discriminate Hrest.
  inversion Hrest; subst. split; [reflexivity |]. split; [exact Hty |].
  exists rawIDM, attrBytes, attrs. cbn.
  split; [reflexivity |]. split; [exact Hloc |]. split; [exact Ep |].
  split; [exact Eb |]. auto.
Qed.

(** X17.  Without the local filter, whenever [MakeArchivalRecord] returns,
    exactly one of the record and the error is nil.  A returned record
    carries the header split off the message, no metadata, and the zero
    timestamp (the caller is to set it). *)
Theorem make_record_or_error `{ABI} (msg : NetlinkMessage)
    (rec : option ArchivalRecord) (err : option error) :
  MakeArchivalRecord msg false = Returns (rec, err) ->
  (rec = None <-> err <> None)
  /\ (forall r, rec = Some r ->
        RawIDM r = fst (SplitInetDiagMsg (Data msg))
        /\ Metadata_ r = None /\ Timestamp r = 0).
Proof.
  intros Hr. split.
  - destruct rec as [r |].
    + destruct (MakeArchivalRecord_record _ _ _ _ Hr) as (-> & _).
      split; [discriminate | intros Hc; now contradiction Hc].
    + split; [| reflexivity]. intros _.
      unfold MakeArchivalRecord in Hr.
      destruct (negb (Type_ (Header msg) =? 20)); [inversion Hr; discriminate |].
      destruct (SplitInetDiagMsg (Data msg)) as [[rawIDM |] attrBytes];
        [| inversion Hr; discriminate].
      destruct (ParseRouteAttr native attrBytes) as [[attrs [e |]] | |]; cbn in Hr;
        try discriminate Hr; [inversion Hr; discriminate |].
      destruct (buildAttributes attrs); cbn in Hr; discriminate Hr.
  - intros r ->.
    destruct (MakeArchivalRecord_record _ _ _ _ Hr)
      as (_ & _ & rawIDM & attrBytes & attrs & Hs & _ & _ & _ & HR & HM & HT).
    rewrite Hs. auto.
Qed.

Lemma make_record_or_error_witness :
  (@None ArchivalRecord = None <-> Some (Sentinel ErrNotType20) <> None)
  /\ (forall r, @None ArchivalRecord = Some r ->
        RawIDM r = fst (SplitInetDiagMsg (ABI := linux_amd64)
                          (Data (mkMsg 3 0 1 1 (repeat x01 80))))
        /\ Metadata_ r = None /\ Timestamp r = 0).
Proof.
  apply (make_record_or_error (H := linux_amd64) (mkMsg 3 0 1 1 (repeat x01 80))).
  reflexivity.
Defined.

(** X18.  With the local filter, for a message of type 20 whose header
    splits off and parses: when either endpoint is loopback, link-local,
    multicast or unspecified the result is a nil record with a nil error,
    reached before the attributes are looked at; otherwise the result is
    the one obtained without the filter. *)
Theorem make_record_local_filter `{ABI} (msg : NetlinkMessage)
    (rawIDM attrBytes idm : list byte) :
  Type_ (Header msg) = 20 ->
  SplitInetDiagMsg (Data msg) = (Some rawIDM, attrBytes) ->
  RawParse rawIDM = inr idm ->
  MakeArchivalRecord msg true
  = if isLocal (SrcIP idm) || isLocal (DstIP idm)
    then Returns (None, None)
    else MakeArchivalRecord msg false.
Proof.
  intros Hty Hs Hp. unfold MakeArchivalRecord. rewrite Hty, Hs, Hp.
  cbn [negb Z.eqb Pos.eqb].
  destruct (isLocal (SrcIP idm) || isLocal (DstIP idm)); reflexivity.
Qed.

Lemma make_record_local_filter_witness :
  MakeArchivalRecord (H := linux_amd64)
    (mkMsg 20 0 1 1 (repeat x01 8 ++ repeat x00 16 ++ repeat x01 48 ++ [x03])) true
  = if isLocal (H := linux_amd64)
         (SrcIP (ABI := linux_amd64)
            (repeat x01 8 ++ repeat x00 16 ++ repeat x01 48))
       || isLocal (H := linux_amd64)
            (DstIP (ABI := linux_amd64)
               (repeat x01 8 ++ repeat x00 16 ++ repeat x01 48))
    then Returns (None, None)
    else MakeArchivalRecord (H := linux_amd64)
           (mkMsg 20 0 1 1 (repeat x01 8 ++ repeat x00 16 ++ repeat x01 48 ++ [x03]))
           false.
Proof.
  apply (make_record_local_filter (H := linux_amd64)
           (mkMsg 20 0 1 1 (repeat x01 8 ++ repeat x00 16 ++ repeat x01 48 ++ [x03]))
           (repeat x01 8 ++ repeat x00 16 ++ repeat x01 48) [x03]); reflexivity.
Defined.

Example local_message_is_dropped :
  MakeArchivalRecord (H := linux_amd64)
    (mkMsg 20 0 1 1 (repeat x01 8 ++ repeat x00 16 ++ repeat x01 48 ++ [x03])) true
  = Returns (None, None).
Proof. reflexivity. Qed.

(* ------------------------------------------------------------------ *)
(** *** From message to snapshot                                       *)
(* ------------------------------------------------------------------ *)

Lemma lastValue_some (T : Z) (attrs : list NetlinkRouteAttr) :
  (exists v, lastValue T attrs = Some v)
  <-> exists a, In a attrs /\ RtaType (Attr a) = T.
Proof.
  induction attrs as [| a rest IH]; cbn [lastValue In].
  - split; [intros [v Hv]; discriminate Hv | intros (a & [] & _)].
  - destruct (lastValue T rest) as [v |].
    + split; [| eauto]. intros _.
      destruct (proj1 IH ltac:(eauto)) as (a' & Hin & Hty). eauto.
    + destruct (Z.eqb_spec (RtaType (Attr a)) T) as [Heq | Hne].
      * split; eauto.
      * split; [intros [v Hv]; discriminate Hv |].
        intros (a' & [<- | Hin] & Hty); [contradiction |].
        apply IH. eauto.
Qed.

Lemma maxObserved_ge (attrs : list NetlinkRouteAttr) (a : NetlinkRouteAttr) :
  In a attrs -> RtaType (Attr a) <= maxObserved attrs.
Proof.
  induction attrs as [| a' rest IH]; [intros [] |].
  rewrite maxObserved_cons. intros [<- | Hin]; [lia |].
  specialize (IH Hin). lia.
Qed.

(** X19.  From message to snapshot: for a record built by
    [MakeArchivalRecord] and accepted by [Decode], when twice
    [INET_DIAG_MAX] is at most 256, bit T-1 of [Observed], for a type T
    between 1 and 32 that does not exceed twice [INET_DIAG_MAX], is set
    exactly when the message carries an attribute of type T. *)
Theorem message_observed_bits `{ABI} (wf : abi_wf H) (msg : NetlinkMessage)
    (skipLocal : bool) (rec : ArchivalRecord) (md : option Metadata) (snap : Snapshot) :
  MakeArchivalRecord msg skipLocal = Returns (Some rec, None) ->
  Decode rec = Returns (md, Some snap, None) ->
  INET_DIAG_MAX <= 128 ->
  exists attrs,
    ParseRouteAttr native (snd (SplitInetDiagMsg (Data msg))) = Returns (attrs, None)
    /\ forall T : Z,
         1 <= T <= 32 -> T <= 2 * INET_DIAG_MAX ->
         (Z.testbit (Observed snap) (T - 1) = true
          <-> exists a, In a attrs /\ RtaType (Attr a) = T).
Proof.
  intros Hrec Hdec Hmax.
  destruct (MakeArchivalRecord_record _ _ _ _ Hrec)
    as (_ & _ & rawIDM & attrBytes & attrs & Hs & _ & Hp & Hb & _).
  exists attrs. rewrite Hs. split; [exact Hp |].
  destruct (buildAttributes_spec wf attrs (ParseRouteAttr_types _ _ _ Hp))
    as (table & Hb' & Hl & Hlook).
  rewrite Hb in Hb'. inversion Hb' as [Ht]. rewrite <- Ht in Hl, Hlook. clear Hb' Ht table.
  intros T HT HT2.
  assert (Hlen : len (Attributes rec) <= 257) by lia.
  pose proof (Decode_entry (fun _ => tt) T
                ltac:(reflexivity) ltac:(reflexivity) ltac:(reflexivity)
                rec md snap Hdec HT Hlen) as He.
  rewrite <- lastValue_some.
  assert (Hentry : entryAt rec T = lastValue T attrs).
  { unfold entryAt. destruct (Z.ltb_spec T 0) as [| _]; [lia |].
    destruct (Z_le_gt_dec T (Z.min (maxObserved attrs) (2 * INET_DIAG_MAX))) as [Hin | Hout].
    - now rewrite (Hlook T ltac:(lia)).
    - rewrite (proj2 (lookup_ge_None _ _)) by (unfold len in Hl; lia).
      destruct (lastValue T attrs) as [v |] eqn:Ev; [| reflexivity].
      destruct (proj1 (lastValue_some T attrs) ltac:(eauto)) as (a & Hin & Hty).
      pose proof (maxObserved_ge attrs a Hin). lia. }
  rewrite Hentry in He. destruct (lastValue T attrs) as [v |].
  - destruct He as (_ & _ & _ & _ & _ & HO & _). split; eauto.
  - destruct He as (_ & HO & _). rewrite HO.
    split; [discriminate | intros [v Hv]; discriminate Hv].
Qed.

Lemma message_observed_bits_witness :
  exists attrs,
    ParseRouteAttr LittleEndian (skipn 72 (Data sampleMessage)) = Returns (attrs, None)
    /\ forall T : Z,
         1 <= T <= 32 -> T <= 2 * 19 ->
         (Z.testbit 8 (T - 1) = true
          <-> exists a, In a attrs /\ RtaType (Attr a) = T).
Proof.
  refine (message_observed_bits (H := linux_amd64) linux_amd64_wf sampleMessage true
            _ _ _ eq_refl eq_refl _).
  simpl. lia.
Defined.

(** X20.  A record that [MakeArchivalRecord] built with the local filter
    on is never rejected by [Decode]: its header has already parsed, so
    whenever [Decode] returns, it returns a snapshot carrying that header,
    nil metadata and a nil error. *)
Theorem filtered_record_decodes `{ABI} (msg : NetlinkMessage) (rec : ArchivalRecord)
    (r : option Metadata * option Snapshot * option error) :
  MakeArchivalRecord msg true = Returns (Some rec, None) ->
  Decode rec = Returns r ->
  exists snap idm,
    r = (None, Some snap, None)
    /\ RawParse (default [] (RawIDM rec)) = inr idm
    /\ InetDiagMsg snap = Some idm.
Proof.
  intros Hrec Hdec.
  destruct (MakeArchivalRecord_record _ _ _ _ Hrec)
    as (_ & _ & rawIDM & attrBytes & attrs & _ & Hloc & _ & _ & HR & HM & _).
  destruct (Hloc eq_refl) as (idm & Hparse & _).
  unfold Decode in Hdec. rewrite HR, HM, Hparse in Hdec.
  destruct (decodeAttributes 0 (Attributes rec) _) as [s' | |] eqn:El;
    cbn in Hdec; try discriminate Hdec.
  inversion Hdec; subst. exists s', idm. split; [reflexivity |].
  rewrite HR. cbn. split; [exact Hparse |].
  now destruct (decodeAttributes_header _ _ _ _ El) as [_ ->].
Qed.

Lemma filtered_record_decodes_witness :
  exists snap idm,
    (@None Metadata,
     Some (set_Observed 8
             (set_CongestionAlgorithm [x07]
                (set_InetDiagMsg (Some (repeat x01 72)) emptySnapshot))),
     @None error) = (None, Some snap, None)
    /\ RawParse (ABI := linux_amd64)
         (default []
            (RawIDM {| Timestamp := 0; RawIDM := Some (repeat x01 72);
                       Attributes := repeat None 4 ++ [Some [x07; x00]] ++ repeat None 34;
                       Metadata_ := None |})) = inr idm
    /\ InetDiagMsg snap = Some idm.
Proof.
  refine (filtered_record_decodes (H := linux_amd64)
            (mkMsg 20 NLM_F_MULTI 1 1
               (repeat x01 72
                ++ [x0a; x00; x04; x00; x63; x75; x62; x69; x63; x00; x00; x00]
                ++ [x05; x00; x64; x00; x01; x00; x00; x00]
                ++ [x06; x00; x04; x00; x07; x00; x00; x00]))
            _ _ eq_refl eq_refl).
Defined.

(* ------------------------------------------------------------------ *)
(** *** getSnapshots: the receive loop                                 *)
(* ------------------------------------------------------------------ *)

(** Without the local filter a nil record always comes with an error. *)
Lemma MakeArchivalRecord_no_nil `{ABI} (msg : NetlinkMessage) :
  MakeArchivalRecord msg false <> Returns (None, None).
Proof.
  unfold MakeArchivalRecord.
  destruct (negb (Type_ (Header msg) =? 20)); [discriminate |].
  destruct (SplitInetDiagMsg (Data msg)) as [[rawIDM |] attrBytes]; [| discriminate].
  destruct (ParseRouteAttr native attrBytes) as [[attrs [e |]] | |]; cbn;
    try discriminate.
  destruct (buildAttributes attrs); cbn; discriminate.
Qed.

(** A batch that is processed to its end: no message of it failed, the
    flag is raised when some message asked to stop, and one record was
    built, in order, for each message handed back. *)
Lemma processBatch_ok `{ABI} (seq pid : Z) (msgs : list NetlinkMessage) :
  forall (archives archives' : list (option ArchivalRecord)) (done done' : bool),
    processBatch seq pid msgs archives done = Returns (inr (archives', done')) ->
    Forall (fun m => failure (processSingleMessage native m seq pid) = None) msgs
    /\ done' = done || existsb (stops seq pid) msgs
    /\ exists new,
         archives' = archives ++ new
         /\ Forall2 (fun m rec => exists r, rec = Some r
                                  /\ MakeArchivalRecord m false = Returns (Some r, None))
              (omap (fun m => accepted (processSingleMessage native m seq pid)) msgs)
              new.
Proof.
  induction msgs as [| msg rest IH]; intros archives archives' done done' Hr.
  - cbn in Hr. inversion Hr; subst. split; [constructor |].
    split; [now rewrite orb_false_r |]. exists []. split; [now rewrite app_nil_r | constructor].
  - cbn [processBatch] in Hr. cbn [omap list_omap existsb].
    unfold stops at 1. unfold failure, accepted, continues.
    destruct (processSingleMessage native msg seq pid) as [[[m sc] err] out] eqn:Ep.
    cbn [fst snd] in *.
    destruct err as [e |]; [discriminate Hr |].
    destruct m as [m' |].
    + destruct (MakeArchivalRecord m' false) as [[cur [e |]] | |] eqn:Em; cbn in Hr;
        try discriminate Hr.
      destruct cur as [r |]; [| now contradiction (MakeArchivalRecord_no_nil m')].
      destruct (IH _ _ _ _ Hr) as (Hall & Hd & new & -> & Hnew).
      split; [constructor; [now rewrite Ep | exact Hall] |]. split.
      * rewrite Hd. destruct sc, done; reflexivity.
      * exists (Some r :: new). split; [now rewrite <- app_assoc |].
        constructor; [eauto | exact Hnew].
    + cbn in Hr. destruct (IH _ _ _ _ Hr) as (Hall & Hd & new & -> & Hnew).
      split; [constructor; [now rewrite Ep | exact Hall] |]. split.
      * rewrite Hd. destruct sc, done; reflexivity.
      * exists new. split; [reflexivity | exact Hnew].
Qed.

(** X21.  When a batch is processed to its end, every message of it has
    passed the classifier, also the messages that follow a terminating
    one; the flag [done] is raised exactly when some message of the batch
    asked to stop; and the records gained are, in order, one non-nil
    record for each message the classifier handed back. *)
Theorem receive_batch_records `{ABI} (seq pid : Z) (msgs : list NetlinkMessage)
    (archives archives' : list (option ArchivalRecord)) (done' : bool) :
  processBatch seq pid msgs archives false = Returns (inr (archives', done')) ->
  Forall (fun m => failure (processSingleMessage native m seq pid) = None) msgs
  /\ done' = existsb (stops seq pid) msgs
  /\ exists new,
       archives' = archives ++ new
       /\ Forall2 (fun m rec => exists r, rec = Some r
                                /\ MakeArchivalRecord m false = Returns (Some r, None))
            (omap (fun m => accepted (processSingleMessage native m seq pid)) msgs)
            new.
Proof. intros Hr. exact (processBatch_ok seq pid msgs _ _ _ _ Hr). Qed.

Lemma receive_batch_records_witness :
  Forall (fun m => failure (processSingleMessage LittleEndian m 1 1) = None)
    [sampleMessage; mkMsg NLMSG_DONE 0 1 1 []; sampleMessage]
  /\ true = existsb (stops (H := linux_amd64) 1 1)
              [sampleMessage; mkMsg NLMSG_DONE 0 1 1 []; sampleMessage]
  /\ exists new,
       [ Some {| Timestamp := 0; RawIDM := Some (repeat x01 72);
                 Attributes := repeat None 4 ++ [Some [x07]] ++ repeat None 34;
                 Metadata_ := None |};
         Some {| Timestamp := 0; RawIDM := Some (repeat x01 72);
                 Attributes := repeat None 4 ++ [Some [x07]] ++ repeat None 34;
                 Metadata_ := None |} ] = [] ++ new
       /\ Forall2 (fun m rec => exists r, rec = Some r
                                /\ MakeArchivalRecord (H := linux_amd64) m false
                                   = Returns (Some r, None))
            (omap (fun m => accepted (processSingleMessage LittleEndian m 1 1))
               [sampleMessage; mkMsg NLMSG_DONE 0 1 1 []; sampleMessage])
            new.
Proof.
  apply (receive_batch_records (H := linux_amd64) 1 1
           [sampleMessage; mkMsg NLMSG_DONE 0 1 1 []; sampleMessage] []).
  reflexivity.
Defined.

(** X22.  The receive loop ends with the first batch in which some
    message asks to stop: what it returns does not depend on anything the
    socket would deliver after that batch. *)
Theorem receive_loop_stops `{ABI} (seq pid : Z) (msgs : list NetlinkMessage)
    (later later' : list (error + list NetlinkMessage))
    (archives : list (option ArchivalRecord)) :
  existsb (stops seq pid) msgs = true ->
  receiveLoop seq pid (inr msgs :: later) archives
  = receiveLoop seq pid (inr msgs :: later') archives.
Proof.
  intros Hstop. cbn [receiveLoop].
  destruct (processBatch seq pid msgs archives false) as [[e | [a' d']] | |] eqn:Eb;
    try reflexivity.
  destruct (processBatch_ok seq pid msgs _ _ _ _ Eb) as (_ & -> & _).
  cbn. now rewrite Hstop.
Qed.

Lemma receive_loop_stops_witness :
  receiveLoop (H := linux_amd64) 1 1
    [inr [sampleMessage; mkMsg NLMSG_DONE 0 1 1 []]; inl (Sentinel ErrBadMsgData)] []
  = receiveLoop (H := linux_amd64) 1 1
      [inr [sampleMessage; mkMsg NLMSG_DONE 0 1 1 []]] [].
Proof.
  apply (receive_loop_stops (H := linux_amd64) 1 1
           [sampleMessage; mkMsg NLMSG_DONE 0 1 1 []]).
  reflexivity.
Defined.

(** X23.  All or nothing: when the classifier fails on any message of the
    first batch, be it after a terminating message, the receive loop hands
    back no records. *)
Theorem receive_loop_aborts `{ABI} (seq pid : Z) (msgs : list NetlinkMessage)
    (m : NetlinkMessage) (later : list (error + list NetlinkMessage))
    (archives archives' : list (option ArchivalRecord)) :
  In m msgs ->
  failure (processSingleMessage native m seq pid) <> None ->
  receiveLoop seq pid (inr msgs :: later) archives <> Returns (inr archives').
Proof.
  intros Hin Hfail Hr. cbn [receiveLoop] in Hr.
  destruct (processBatch seq pid msgs archives false) as [[e | [a' d']] | |] eqn:Eb;
    cbn in Hr; try discriminate Hr.
  destruct (processBatch_ok seq pid msgs _ _ _ _ Eb) as (Hall & _).
  rewrite Forall_forall in Hall. apply Hfail, Hall. now apply list_elem_of_In.
Qed.

Lemma receive_loop_aborts_witness :
  receiveLoop (H := linux_amd64) 1 1
    [inr [sampleMessage; mkMsg NLMSG_DONE 0 1 1 []; mkMsg 20 0 2 1 []]] []
  <> Returns (inr []).
Proof.
  apply (receive_loop_aborts (H := linux_amd64) 1 1
           [sampleMessage; mkMsg NLMSG_DONE 0 1 1 []; mkMsg 20 0 2 1 []]
           (mkMsg 20 0 2 1 [])).
  - simpl. tauto.
  - vm_compute. discriminate.
Defined.

(* ------------------------------------------------------------------ *)
(** *** Snapshot assembler: the one panic                              *)
(* ------------------------------------------------------------------ *)

Lemma decodeAttribute_fuel `{ABI} (t : Z) (rta : list byte) (s : Snapshot) :
  decodeAttribute t rta s <> OutOfFuel.
Proof.
  unfold decodeAttribute, toMemInfo, toLinuxTCPInfo, toVegasInfo, toSockMemInfo,
    toDCTCPInfo, toBBRInfo, toTOS, toTCLASS, toClassID, toShutdown, toProtocol,
    toUint8, toMark, CongestionAlgorithm_, maybeCopy.
  repeat match goal with
         | |- context [if ?c then _ else _] => destruct c
         | |- context [match ?l with [] => _ | _ :: _ => _ end] => destruct l
         end; cbn; discriminate.
Qed.

Lemma decodeAttributes_fuel `{ABI} (attrs : list (option (list byte))) :
  forall (t : Z) (s : Snapshot), decodeAttributes t attrs s <> OutOfFuel.
Proof.
  induction attrs as [| [rta |] rest IH]; intros t s.
  - discriminate.
  - rewrite decodeAttributes_some.
    pose proof (decodeAttribute_fuel t rta s) as Hf.
    destruct (decodeAttribute t rta s) as [[s1 ok] | |]; cbn;
      [apply IH | discriminate | contradiction].
  - cbn [decodeAttributes]. apply IH.
Qed.

(** At its own label, an empty congestion-algorithm entry panics. *)
Lemma decodeAttribute_empty_cong `{ABI} (wf : abi_wf H) (s : Snapshot) :
  decodeAttribute INET_DIAG_CONG [] s = Panics.
Proof.
  distinct_labels wf. unfold decodeAttribute.
  repeat match goal with
         | |- context [if ?a =? ?b then _ else _] =>
             destruct (Z.eqb_spec a b); [try (exfalso; congruence) |]
         end;
    try (exfalso; congruence).
  reflexivity.
Qed.

Lemma decodeAttributes_no_empty_cong `{ABI} (wf : abi_wf H)
    (attrs : list (option (list byte))) :
  forall (t : Z) (s s' : Snapshot),
    decodeAttributes t attrs s = Returns s' ->
    forall i : nat, attrs !! i = Some (Some []) -> t + Z.of_nat i <> INET_DIAG_CONG.
Proof.
  induction attrs as [| [rta |] rest IH]; intros t s s' Hr i Hi.
  - discriminate Hi.
  - rewrite decodeAttributes_some in Hr.
    destruct (decodeAttribute t rta s) as [[s1 ok] | |] eqn:E; cbn in Hr;
      try discriminate Hr.
    destruct i as [| i].
    + cbn in Hi. inversion Hi; subst rta. intros Heq.
      replace (t + Z.of_nat 0) with t in Heq by lia. subst t.
      rewrite (decodeAttribute_empty_cong wf) in E. discriminate E.
    + specialize (IH _ _ _ Hr i Hi). lia.
  - cbn [decodeAttributes] in Hr. destruct i as [| i]; [discriminate Hi |].
    specialize (IH _ _ _ Hr i Hi). lia.
Qed.

(** X24.  For a record that has metadata or a header, the header parsing
    when there is one, [Decode] panics exactly when the table holds an
    empty, non-nil entry for the congestion algorithm; on every other such
    record it returns. *)
Theorem decode_panics_iff `{ABI} (wf : abi_wf H) (ar : ArchivalRecord) :
  (RawIDM ar = None -> Metadata_ ar <> None) ->
  (forall raw, RawIDM ar = Some raw -> exists idm, RawParse raw = inr idm) ->
  (Decode ar = Panics <-> entryAt ar INET_DIAG_CONG = Some [])
  /\ (Decode ar <> Panics -> exists snap, Decode ar = Returns (Metadata_ ar, Some snap, None)).
Proof.
  intros Hnonempty Hparse.
  assert (Hshape : exists s0,
             Decode ar = (result2 ← decodeAttributes 0 (Attributes ar) s0;
                          mret (Metadata_ ar, Some result2, @None error))).
  { unfold Decode.
    destruct (RawIDM ar) as [raw |] eqn:Eraw.
    - destruct (Hparse raw eq_refl) as [idm ->].
      destruct (Metadata_ ar); eexists; reflexivity.
    - destruct (Metadata_ ar); [eexists; reflexivity |].
      exfalso. now apply Hnonempty. }
  destruct Hshape as [s0 ->].
  assert (Hentry : entryAt ar INET_DIAG_CONG = Some []
                   <-> exists i : nat, Attributes ar !! i = Some (Some [])
                                       /\ 0 + Z.of_nat i = INET_DIAG_CONG).
  { unfold entryAt. split.
    - destruct (Z.ltb_spec INET_DIAG_CONG 0) as [| Hpos]; [discriminate |].
      destruct (Attributes ar !! Z.to_nat INET_DIAG_CONG) as [e |] eqn:El; [| discriminate].
      intros ->. exists (Z.to_nat INET_DIAG_CONG). split; [exact El | lia].
    - intros (i & Hi & Heq).
      destruct (Z.ltb_spec INET_DIAG_CONG 0) as [| _]; [lia |].
      replace (Z.to_nat INET_DIAG_CONG) with i by lia. now rewrite Hi. }
  pose proof (decodeAttributes_fuel (Attributes ar) 0 s0) as Hfuel.
  destruct (decodeAttributes 0 (Attributes ar) s0) as [s' | |] eqn:El;
    [| | contradiction]; cbn.
  - split; [| eauto]. split; [discriminate |].
    intros He. apply Hentry in He as (i & Hi & Heq).
    now contradiction (decodeAttributes_no_empty_cong wf _ _ _ _ El i Hi).
  - split; [| intros Hc; now contradiction Hc]. split; [| reflexivity]. intros _.
    apply Hentry.
    destruct (Z.ltb_spec INET_DIAG_CONG 0) as [Hneg | Hpos].
    { destruct (decodeAttributes_returns wf (Attributes ar) 0 s0) as [s' Hs'];
        [intros i _; lia | rewrite El in Hs'; discriminate Hs']. }
    destruct (Attributes ar !! Z.to_nat INET_DIAG_CONG) as [[[| b raw] |] |] eqn:Ec.
    { exists (Z.to_nat INET_DIAG_CONG). split; [exact Ec | lia]. }
    all: destruct (decodeAttributes_returns wf (Attributes ar) 0 s0) as [s' Hs'];
      [ intros i Hi Heq; replace i with (Z.to_nat INET_DIAG_CONG) in Hi by lia;
        rewrite Ec in Hi; discriminate Hi
      | rewrite El in Hs'; discriminate Hs' ].
Qed.

Lemma decode_panics_iff_witness :
  (Decode (H := linux_amd64) (metadataRecord [None; None; None; None; Some []]) = Panics
   <-> entryAt (metadataRecord [None; None; None; None; Some []])
         (INET_DIAG_CONG (ABI := linux_amd64)) = Some [])
  /\ (Decode (H := linux_amd64) (metadataRecord [None; None; None; None; Some []]) <> Panics ->
      exists snap,
        Decode (H := linux_amd64) (metadataRecord [None; None; None; None; Some []])
        = Returns (Metadata_ (metadataRecord [None; None; None; None; Some []]),
                   Some snap, None)).
Proof.
  apply (decode_panics_iff (H := linux_amd64) linux_amd64_wf
           (metadataRecord [None; None; None; None; Some []])).
  - simpl. discriminate.
  - simpl. discriminate.
Defined.
